(** * CHIP-8 emulator (chip-8-emu-js): a shallow embedding and its properties

    The JavaScript sources [renderer.js], [keyboard.js], [speaker.js],
    [cpu.js] and [chip8.js] are embedded as pure functions over explicit
    state records.  Every object the emulator mutates is a record; a method
    is a function from the old record to the new one.  The only exception
    the program throws (the [default] arm of the opcode switch) is carried
    by the [result] type. *)

From Stdlib Require Import ZArith QArith List Lia Bool.
From stdpp Require Import base option list gmap.

Local Open Scope Z_scope.

(** ** JavaScript values the emulator stores *)

(** The program counter and the call stack hold JavaScript numbers.  All of
    them are integers, except that [Array.prototype.pop] on an empty stack
    yields [undefined], and arithmetic on [undefined] yields [NaN]. *)
Inductive jsnum : Type :=
| Num (z : Z)
| Undefined
| NaN.

(** [a + b] where [b] is an integer literal. *)
Definition jsAdd (a : jsnum) (b : Z) : jsnum :=
  match a with
  | Num z => Num (z + b)
  | Undefined | NaN => NaN
  end.

(** [ToInt32] of a value read from an array: [undefined] becomes 0 inside a
    bitwise operator. *)
Definition toInt (o : option Z) : Z := default 0 o.

(** ** Typed arrays ([Uint8Array]) *)

(** [arr[idx]]: a read outside the array yields [undefined]. *)
Definition u8get (arr : list Z) (idx : Z) : option Z :=
  if idx <? 0 then None else arr !! Z.to_nat idx.

(** [arr[idx] = val]: the value is stored modulo 256; a write outside the
    array is ignored (a typed array never grows). *)
Definition u8set (arr : list Z) (idx : Z) (val : Z) : list Z :=
  if idx <? 0 then arr else <[Z.to_nat idx := val mod 256]> arr.

(** A typed-array index that is itself a JavaScript number. *)
Definition u8getAt (arr : list Z) (idx : jsnum) : option Z :=
  match idx with
  | Num z => u8get arr z
  | Undefined | NaN => None
  end.

(** ** Exceptions *)

Inductive error : Type :=
| UnknownOpcode (opcode : Z).

Inductive result (A : Type) : Type :=
| Ok (a : A)
| Throw (e : error).
Arguments Ok {A} a.
Arguments Throw {A} e.

(** An exception thrown by [m] propagates: the rest [k] does not run. *)
#[global] Instance result_bind : MBind result := fun A B k m =>
  match m with
  | Ok a => k a
  | Throw e => Throw e
  end.

(** ** renderer.js *)

Module Renderer.

(** [display] is a JavaScript [Array] created with [new Array(cols * rows)]:
    it has no element until one is written, a read of a missing index is
    [undefined], and a write at any index (also past the length, also a
    negative one, which becomes a plain property) creates the entry.  It is
    therefore a finite map from indices to stored numbers.

    [canvas] is the list of rectangles filled by the last [render].
    [setPixelCalls] is a ghost field: the arguments of every [setPixel]
    call so far, oldest first. *)
Record t : Type := mk {
  cols : Z;
  rows : Z;
  scale : Z;
  display : gmap Z Z;
  canvas : list (Z * Z);
  setPixelCalls : list (Z * Z)
}.

Definition new (scale : Z) : t :=
  {| cols := 64; rows := 32; scale := scale;
     display := ∅; canvas := []; setPixelCalls := [] |}.

(** The wrap of [setPixel], for one coordinate. *)
Definition wrap (c bound : Z) : Z :=
  if c >? bound then c - bound
  else if c <? 0 then c + bound
  else c.

Definition pixelLoc (r : t) (x y : Z) : Z :=
  wrap x (cols r) + wrap y (rows r) * cols r.

(** [setPixel(x, y)]: [display[pixelLoc] ^= 1], then [!display[pixelLoc]]. *)
Definition setPixel (x y : Z) (r : t) : t * bool :=
  let loc := pixelLoc r x y in
  let bit := Z.lxor (toInt (display r !! loc)) 1 in
  ({| cols := cols r; rows := rows r; scale := scale r;
      display := <[loc := bit]> (display r);
      canvas := canvas r;
      setPixelCalls := setPixelCalls r ++ [(x, y)] |},
   bit =? 0).

Definition clear (r : t) : t :=
  {| cols := cols r; rows := rows r; scale := scale r;
     display := ∅; canvas := canvas r;
     setPixelCalls := setPixelCalls r |}.

(** The rectangle [render] fills for index [i], if the pixel is set. *)
Definition rect (r : t) (i : Z) : option (Z * Z) :=
  if toInt (display r !! i) =? 0 then None
  else Some ((i mod cols r) * scale r, (i / cols r) * scale r).

Definition render (r : t) : t :=
  {| cols := cols r; rows := rows r; scale := scale r;
     display := display r;
     canvas := omap (fun n => rect r (Z.of_nat n))
                    (seq 0 (Z.to_nat (cols r * rows r)));
     setPixelCalls := setPixelCalls r |}.

End Renderer.

(** ** speaker.js *)

Module Speaker.

(** [oscillator] holds the frequency of the running tone, if any. *)
Record t : Type := mk { oscillator : option Z }.

Definition new : t := {| oscillator := None |}.

(** [frequency || 440]: a zero frequency is falsy. *)
Definition play (frequency : Z) (sp : t) : t :=
  match oscillator sp with
  | Some _ => sp
  | None => {| oscillator := Some (if frequency =? 0 then 440 else frequency) |}
  end.

Definition stop (sp : t) : t := {| oscillator := None |}.

End Speaker.

(** ** keyboard.js *)

(** The one-shot callback registered by the key-wait instruction: the
    closure [onNextKeyPressed], bound to the CPU, with the register index
    [x] it captured. *)
Inductive callback : Type :=
| onNextKeyPressed (x : Z).

Module Keyboard.

(** [keysPressed] is a JavaScript [Array] used as a map from key values to
    booleans.  An unmapped physical key gives the key value [undefined],
    and [keysPressed[undefined] = true] sets the property of that name:
    the key [None] stands for it. *)
Record t : Type := mk {
  keysPressed : gmap (option Z) bool;
  onNextKeyPress : option callback
}.

(** The table from physical key codes ([event.which]) to key values. *)
Definition KEYMAP : gmap Z Z :=
  list_to_map
    [ (49, 0x1); (50, 0x2); (51, 0x3); (52, 0xc);
      (81, 0x4); (87, 0x5); (69, 0x6); (82, 0xD);
      (65, 0x7); (83, 0x8); (68, 0x9); (70, 0xE);
      (90, 0xA); (88, 0x0); (67, 0xB); (86, 0xF) ].

Definition new : t := {| keysPressed := ∅; onNextKeyPress := None |}.

(** [isKeyPressed(keyCode)], read as a condition: a missing entry is
    [undefined], which is falsy. *)
Definition isKeyPressed (keyCode : Z) (k : t) : bool :=
  default false (keysPressed k !! Some keyCode).

Definition setPressed (key : option Z) (b : bool) (k : t) : t :=
  {| keysPressed := <[key := b]> (keysPressed k);
     onNextKeyPress := onNextKeyPress k |}.

Definition setOnNextKeyPress (cb : option callback) (k : t) : t :=
  {| keysPressed := keysPressed k; onNextKeyPress := cb |}.

(** A key value used as a condition: [undefined] and [0] are falsy. *)
Definition truthy (key : option Z) : bool :=
  match key with
  | Some k => negb (k =? 0)
  | None => false
  end.

Definition onKeyUp (which : Z) (k : t) : t :=
  setPressed (KEYMAP !! which) false k.

End Keyboard.

(** ** cpu.js *)

Module CPU.

(** The CPU object, with the three collaborators it holds a reference to.
    [memory] and [v] are [Uint8Array]s.  [stack] is a JavaScript [Array]
    whose top is its last element.

    [Math.random] is the host's: [mathRandom n] is the value of
    [Math.floor(Math.random() * 0xFF)] at the [n]-th draw, taken modulo 255
    since [Math.random()] is below 1, and [randomCalls] counts the draws. *)
Record t : Type := mk {
  renderer : Renderer.t;
  keyboard : Keyboard.t;
  speaker : Speaker.t;
  memory : list Z;
  v : list Z;
  i : Z;
  delayTimer : Z;
  soundTimer : Z;
  pc : jsnum;
  stack : list jsnum;
  paused : bool;
  speed : Z;
  mathRandom : nat -> Z;
  randomCalls : nat
}.

(** The constructor.  The typed arrays are zero-filled. *)
Definition new (renderer : Renderer.t) (keyboard : Keyboard.t)
    (speaker : Speaker.t) (mathRandom : nat -> Z) : t :=
  {| renderer := renderer; keyboard := keyboard; speaker := speaker;
     memory := replicate 16 0;
     v := replicate 16 0;
     i := 0; delayTimer := 0; soundTimer := 0;
     pc := Num 0x200; stack := []; paused := false; speed := 10;
     mathRandom := mathRandom; randomCalls := 0 |}.

(** *** Field updates *)

Definition with_renderer (r : Renderer.t) (s : t) : t :=
  mk r (keyboard s) (speaker s) (memory s) (v s) (i s) (delayTimer s)
     (soundTimer s) (pc s) (stack s) (paused s) (speed s) (mathRandom s)
     (randomCalls s).

Definition with_keyboard (k : Keyboard.t) (s : t) : t :=
  mk (renderer s) k (speaker s) (memory s) (v s) (i s) (delayTimer s)
     (soundTimer s) (pc s) (stack s) (paused s) (speed s) (mathRandom s)
     (randomCalls s).

Definition with_speaker (sp : Speaker.t) (s : t) : t :=
  mk (renderer s) (keyboard s) sp (memory s) (v s) (i s) (delayTimer s)
     (soundTimer s) (pc s) (stack s) (paused s) (speed s) (mathRandom s)
     (randomCalls s).

Definition with_memory (m : list Z) (s : t) : t :=
  mk (renderer s) (keyboard s) (speaker s) m (v s) (i s) (delayTimer s)
     (soundTimer s) (pc s) (stack s) (paused s) (speed s) (mathRandom s)
     (randomCalls s).

Definition with_v (regs : list Z) (s : t) : t :=
  mk (renderer s) (keyboard s) (speaker s) (memory s) regs (i s)
     (delayTimer s) (soundTimer s) (pc s) (stack s) (paused s) (speed s)
     (mathRandom s) (randomCalls s).

Definition with_i (a : Z) (s : t) : t :=
  mk (renderer s) (keyboard s) (speaker s) (memory s) (v s) a (delayTimer s)
     (soundTimer s) (pc s) (stack s) (paused s) (speed s) (mathRandom s)
     (randomCalls s).

Definition with_delayTimer (d : Z) (s : t) : t :=
  mk (renderer s) (keyboard s) (speaker s) (memory s) (v s) (i s) d
     (soundTimer s) (pc s) (stack s) (paused s) (speed s) (mathRandom s)
     (randomCalls s).

Definition with_soundTimer (d : Z) (s : t) : t :=
  mk (renderer s) (keyboard s) (speaker s) (memory s) (v s) (i s)
     (delayTimer s) d (pc s) (stack s) (paused s) (speed s) (mathRandom s)
     (randomCalls s).

Definition with_pc (p : jsnum) (s : t) : t :=
  mk (renderer s) (keyboard s) (speaker s) (memory s) (v s) (i s)
     (delayTimer s) (soundTimer s) p (stack s) (paused s) (speed s)
     (mathRandom s) (randomCalls s).

Definition with_stack (st : list jsnum) (s : t) : t :=
  mk (renderer s) (keyboard s) (speaker s) (memory s) (v s) (i s)
     (delayTimer s) (soundTimer s) (pc s) st (paused s) (speed s)
     (mathRandom s) (randomCalls s).

Definition with_paused (b : bool) (s : t) : t :=
  mk (renderer s) (keyboard s) (speaker s) (memory s) (v s) (i s)
     (delayTimer s) (soundTimer s) (pc s) (stack s) b (speed s)
     (mathRandom s) (randomCalls s).

Definition with_randomCalls (n : nat) (s : t) : t :=
  mk (renderer s) (keyboard s) (speaker s) (memory s) (v s) (i s)
     (delayTimer s) (soundTimer s) (pc s) (stack s) (paused s) (speed s)
     (mathRandom s) n.

(** [this.v[idx]] used as a number.  The index is always a nibble of the
    opcode or a constant below 16, hence inside the 16 registers. *)
Definition vget (s : t) (idx : Z) : Z := toInt (u8get (v s) idx).

(** [this.v[idx] = val]. *)
Definition vset (idx val : Z) (s : t) : t := with_v (u8set (v s) idx val) s.

(** [this.memory[idx] = val]. *)
Definition mset (idx val : Z) (s : t) : t :=
  with_memory (u8set (memory s) idx val) s.

(** [this.pc += 2]. *)
Definition skip (s : t) : t := with_pc (jsAdd (pc s) 2) s.

(** *** Loading *)

Definition sprites : list Z :=
  [ 0xF0; 0x90; 0x90; 0x90; 0xF0;
    0x20; 0x60; 0x20; 0x20; 0x70;
    0xF0; 0x10; 0xF0; 0x80; 0xF0;
    0xF0; 0x10; 0xF0; 0x10; 0xF0;
    0x90; 0x90; 0xF0; 0x10; 0x10;
    0xF0; 0x80; 0xF0; 0x10; 0xF0;
    0xF0; 0x80; 0xF0; 0x90; 0xF0;
    0xF0; 0x10; 0x20; 0x40; 0x40;
    0xF0; 0x90; 0xF0; 0x90; 0xF0;
    0xF0; 0x90; 0xF0; 0x10; 0xF0;
    0xF0; 0x90; 0xF0; 0x90; 0x90;
    0xE0; 0x90; 0xE0; 0x90; 0xE0;
    0xF0; 0x80; 0x80; 0x80; 0xF0;
    0xE0; 0x90; 0x90; 0x90; 0xE0;
    0xF0; 0x80; 0xF0; 0x80; 0xF0;
    0xF0; 0x80; 0xF0; 0x80; 0x80 ].

(** [for (loc = from; ...; loc++) memory[base + loc] = bytes[loc]], where
    [bytes] are the elements not yet copied. *)
Fixpoint copyInto (base : Z) (loc : Z) (bytes : list Z) (m : list Z) : list Z :=
  match bytes with
  | [] => m
  | b :: rest => copyInto base (loc + 1) rest (u8set m (base + loc) b)
  end.

Definition loadSpritesIntoMemory (s : t) : t :=
  with_memory (copyInto 0 0 sprites (memory s)) s.

Definition loadProgramIntoMemory (program : list Z) (s : t) : t :=
  with_memory (copyInto 0x200 0 program (memory s)) s.

(** *** Timers and sound *)

Definition updateTimers (s : t) : t :=
  let s := if delayTimer s >? 0 then with_delayTimer (delayTimer s - 1) s else s in
  if soundTimer s >? 0 then with_soundTimer (soundTimer s - 1) s else s.

Definition playSound (s : t) : t :=
  if soundTimer s >? 0 then with_speaker (Speaker.play 40 (speaker s)) s
  else with_speaker (Speaker.stop (speaker s)) s.

(** *** The draw instruction's loops *)

(** The body of the innermost [if]: one [setPixel] call, whose two
    coordinates are read from the registers at the time of the call. *)
Definition plot (x col row : Z) (s : t) : t :=
  let '(r, erased) :=
    Renderer.setPixel (vget s x + col) (vget s x + row) (renderer s) in
  let s := with_renderer r s in
  if erased then vset 0xF 1 s else s.

(** [for (col = ...; col < width; col++)], with [n] iterations left.  The
    tested value [sprite] is the same at every iteration: the source shifts
    it only after this loop. *)
Fixpoint drawCols (x row sprite : Z) (col : Z) (n : nat) (s : t) : t :=
  match n with
  | O => s
  | S n' =>
      let s := if Z.land sprite 0x80 >? 0 then plot x col row s else s in
      drawCols x row sprite (col + 1) n' s
  end.

(** [for (row = ...; row < height; row++)], with [n] iterations left.  The
    statement [sprite <<= 1] that ends the body writes a variable that the
    next iteration declares anew, so it leaves no trace. *)
Fixpoint drawRows (x : Z) (row : Z) (n : nat) (s : t) : t :=
  match n with
  | O => s
  | S n' =>
      let sprite := toInt (u8get (memory s) (i s + row)) in
      let s := drawCols x row sprite 0 8 s in
      drawRows x (row + 1) n' s
  end.

(** *** The bulk load and store loops *)

Fixpoint storeRegisters (registerIndex : Z) (n : nat) (s : t) : t :=
  match n with
  | O => s
  | S n' =>
      storeRegisters (registerIndex + 1) n'
        (mset (i s + registerIndex) (vget s registerIndex) s)
  end.

Fixpoint loadRegisters (registerIndex : Z) (n : nat) (s : t) : t :=
  match n with
  | O => s
  | S n' =>
      loadRegisters (registerIndex + 1) n'
        (vset registerIndex (toInt (u8get (memory s) (i s + registerIndex))) s)
  end.

(** [this.stack.pop()]: the last element, or [undefined] when empty. *)
Definition pop (st : list jsnum) : jsnum * list jsnum :=
  match last st with
  | Some top => (top, removelast st)
  | None => (Undefined, st)
  end.

(** *** Field extraction *)

Definition opX (opcode : Z) : Z := Z.shiftr (Z.land opcode 0x0F00) 8.
Definition opY (opcode : Z) : Z := Z.shiftr (Z.land opcode 0x00F0) 4.

(** *** executeInstruction *)

(** The [switch] statement of [executeInstruction], as a function of the
    value [selector] it switches on.  [opcode], [x] and [y] are the
    variables of the enclosing function, and [s] is the state once the
    program counter has been advanced. *)
Definition opcodeSwitch (selector : Z) (opcode x y : Z) (s : t) : result t :=
  match selector with
  | 0x0000 =>
      match opcode with
      | 0x0000 => Ok s
      | 0x00E0 => Ok (with_renderer (Renderer.clear (renderer s)) s)
      | 0x00EE =>
          let '(top, rest) := pop (stack s) in
          Ok (with_pc top (with_stack rest s))
      | _ => Ok s
      end
  | 0x1000 => Ok (with_pc (Num (Z.land opcode 0xFFF)) s)
  | 0x2000 =>
      let s := with_stack (stack s ++ [pc s]) s in
      Ok (with_pc (Num (Z.land opcode 0xFFF)) s)
  | 0x3000 => Ok (if vget s x =? Z.land opcode 0xFF then skip s else s)
  | 0x4000 => Ok (if vget s x =? Z.land opcode 0xFF then s else skip s)
  | 0x5000 => Ok (if vget s x =? vget s y then skip s else s)
  | 0x6000 => Ok (vset x (Z.land opcode 0xFF) s)
  | 0x7000 => Ok (vset x (vget s x + Z.land opcode 0xFF) s)
  | 0x8000 =>
      match Z.land opcode 0xF with
      | 0x0 => Ok (vset x (vget s y) s)
      | 0x1 => Ok (vset x (Z.lor (vget s x) (vget s y)) s)
      | 0x2 => Ok (vset x (Z.land (vget s x) (vget s y)) s)
      | 0x3 => Ok (vset x (Z.lxor (vget s x) (vget s y)) s)
      | 0x4 =>
          (* [const sum = (this.v[x] += this.v[y])]: the value of a
             compound assignment is the sum itself, not the stored byte. *)
          let sum := vget s x + vget s y in
          let s := vset x sum s in
          let s := vset 0xF 0 s in
          let s := if sum >? 0xFF then vset 0xF 1 s else s in
          Ok (vset x sum s)
      | 0x5 =>
          let s := vset 0xF 0 s in
          let s := if vget s x >? vget s y then vset 0xF 1 s else s in
          Ok (vset x (vget s x - vget s y) s)
      | 0x6 =>
          let s := vset 0xF (Z.land (vget s x) 0x1) s in
          Ok (vset x (Z.shiftr (vget s x) 1) s)
      | 0x7 =>
          let s := vset 0xF 0 s in
          let s := if vget s y >? vget s x then vset 0xF 1 s else s in
          Ok (vset x (vget s y - vget s x) s)
      | 0xE =>
          let s := vset 0xF (Z.land (vget s x) 0x80) s in
          Ok (vset x (Z.shiftl (vget s x) 1) s)
      | _ => Ok s
      end
  | 0x9000 => Ok (if vget s x =? vget s y then s else skip s)
  | 0xA000 => Ok (with_i (Z.land opcode 0xFFF) s)
  | 0xB000 => Ok (with_pc (Num (Z.land opcode 0xFFF + vget s 0)) s)
  | 0xC000 =>
      let rand := mathRandom s (randomCalls s) mod 0xFF in
      let s := with_randomCalls (S (randomCalls s)) s in
      Ok (vset x (Z.land rand (Z.land opcode 0xFF)) s)
  | 0xD000 =>
      let height := Z.land opcode 0xF in
      let s := vset 0xF 0 s in
      Ok (drawRows x 0 (Z.to_nat height) s)
  | 0xE000 =>
      match Z.land opcode 0xFF with
      | 0x9E =>
          Ok (if Keyboard.isKeyPressed (vget s x) (keyboard s) then skip s else s)
      | 0xA1 =>
          Ok (if Keyboard.isKeyPressed (vget s x) (keyboard s) then s else skip s)
      | _ => Ok s
      end
  | 0xF000 =>
      match Z.land opcode 0xFF with
      | 0x07 => Ok (vset x (delayTimer s) s)
      | 0x0A =>
          let s := with_paused true s in
          Ok (with_keyboard
                (Keyboard.setOnNextKeyPress (Some (onNextKeyPressed x))
                   (keyboard s)) s)
      | 0x15 => Ok (with_delayTimer (vget s x) s)
      | 0x18 => Ok (with_soundTimer (vget s x) s)
      | 0x1E => Ok (with_i (i s + vget s x) s)
      | 0x29 => Ok (with_i (vget s x * 5) s)
      | 0x33 =>
          let s := mset (i s) (vget s x / 100) s in
          let s := mset (i s + 1) ((vget s x mod 100) / 10) s in
          Ok (mset (i s + 2) (vget s x mod 10) s)
      | 0x55 => Ok (storeRegisters 0 (Z.to_nat (x + 1)) s)
      | 0x65 => Ok (loadRegisters 0 (Z.to_nat (x + 1)) s)
      | _ => Ok s
      end
  | _ => Throw (UnknownOpcode opcode)
  end.

(** [this.pc += 2], the two fields [x] and [y], then the switch on
    [opcode & 0xF000]. *)
Definition executeInstruction (opcode : Z) (s : t) : result t :=
  let s := skip s in
  let x := opX opcode in
  let y := opY opcode in
  opcodeSwitch (Z.land opcode 0xF000) opcode x y s.

(** *** cycle *)

(** [(this.memory[this.pc] << 8 | this.memory[this.pc + 1])]. *)
Definition fetch (s : t) : Z :=
  Z.lor (Z.shiftl (toInt (u8getAt (memory s) (pc s))) 8)
        (toInt (u8getAt (memory s) (jsAdd (pc s) 1))).

(** The [for] loop of [cycle], with [n] iterations left.  [exec] is the
    method the loop calls through [this.executeInstruction]. *)
Fixpoint cycleLoop (exec : Z -> t -> result t) (n : nat) (s : t) : result t :=
  match n with
  | O => Ok s
  | S n' =>
      s' ← (if paused s then Ok s else exec (fetch s) s);
      cycleLoop exec n' s'
  end.

Definition cycleWith (exec : Z -> t -> result t) (s : t) : result t :=
  s ← cycleLoop exec (Z.to_nat (speed s)) s;
  let s := if paused s then s else updateTimers s in
  let s := playSound s in
  Ok (with_renderer (Renderer.render (renderer s)) s).

Definition cycle (s : t) : result t := cycleWith executeInstruction s.

End CPU.

(** ** Key events (keyboard.js, [onKeyDown]) *)

(** A call of the registered closure: [this.v[x] = key; this.paused = false]
    on the CPU it is bound to. *)
Definition call (cb : callback) (key : Z) (s : CPU.t) : CPU.t :=
  match cb with
  | onNextKeyPressed x => CPU.with_paused false (CPU.vset x key s)
  end.

(** The handler acts on the keyboard and, through the callback, on the CPU
    that owns it, so it is a function of the whole CPU state. *)
Definition onKeyDown (which : Z) (s : CPU.t) : CPU.t :=
  let key := Keyboard.KEYMAP !! which in
  let s := CPU.with_keyboard (Keyboard.setPressed key true (CPU.keyboard s)) s in
  match Keyboard.onNextKeyPress (CPU.keyboard s), key with
  | Some cb, Some k =>
      if Keyboard.truthy key then
        let s := call cb k s in
        CPU.with_keyboard (Keyboard.setOnNextKeyPress None (CPU.keyboard s)) s
      else s
  | _, _ => s
  end.

Definition onKeyUp (which : Z) (s : CPU.t) : CPU.t :=
  CPU.with_keyboard (Keyboard.onKeyUp which (CPU.keyboard s)) s.

(** ** chip8.js *)

Module Chip8.

(** The module's variables.  [then] is a keyword here, hence [then_].
    [Date.now()] is an input of [init] and [step]: an integer number of
    milliseconds.  [loop] counts the animation frames requested so far. *)
Record t : Type := mk {
  cpu : CPU.t;
  fps : Z;
  fpsInterval : Q;
  startTime : Z;
  now : Z;
  then_ : Z;
  elapsed : Z;
  loop : nat
}.

(** The state when the module has been evaluated up to the call of [init].
    The variables declared without a value are shown as 0: [init] assigns
    [fpsInterval], [then] and [startTime], and [step] assigns [now] and
    [elapsed], before any of them is read. *)
Definition start (mathRandom : nat -> Z) : t :=
  {| cpu := CPU.new (Renderer.new 10) Keyboard.new Speaker.new mathRandom;
     fps := 60; fpsInterval := 0; startTime := 0; now := 0; then_ := 0;
     elapsed := 0; loop := O |}.

(** [init].  [loadRom] only sends the request; the program arrives later
    (see [onload]). *)
Definition init (dateNow : Z) (g : t) : t :=
  {| cpu := CPU.loadSpritesIntoMemory (cpu g);
     fps := fps g;
     fpsInterval := (1000 # 1) / inject_Z (fps g);
     startTime := dateNow; now := now g; then_ := dateNow;
     elapsed := elapsed g; loop := S (loop g) |}.

(** The [onload] handler of [loadRom]: [response] is the received bytes,
    or nothing. *)
Definition onload (response : option (list Z)) (g : t) : t :=
  match response with
  | Some program =>
      mk (CPU.loadProgramIntoMemory program (cpu g)) (fps g) (fpsInterval g)
         (startTime g) (now g) (then_ g) (elapsed g) (loop g)
  | None => g
  end.

(** [elapsed > fpsInterval]. *)
Definition due (elapsed : Z) (fpsInterval : Q) : bool :=
  negb (Qle_bool (inject_Z elapsed) fpsInterval).

(** [step].  An exception thrown by [cycle] leaves the function before the
    next frame is requested. *)
Definition step (dateNow : Z) (g : t) : result t :=
  let elapsed := dateNow - then_ g in
  c ← (if due elapsed (fpsInterval g) then CPU.cycle (cpu g) else Ok (cpu g));
  Ok (mk c (fps g) (fpsInterval g) (startTime g) dateNow (then_ g) elapsed
         (S (loop g))).

End Chip8.

(** ** Vocabulary of the properties *)

(** The selector values that have a [case] in the outer switch. *)
Definition dispatchGroups : list Z :=
  [ 0x0000; 0x1000; 0x2000; 0x3000; 0x4000; 0x5000; 0x6000; 0x7000;
    0x8000; 0x9000; 0xA000; 0xB000; 0xC000; 0xD000; 0xE000; 0xF000 ].

(** The selector of the inner switch has none of the listed values. *)
Definition noneOf (cases : list Z) (selector : Z) : bool :=
  negb (existsb (Z.eqb selector) cases).

(** An opcode of one of the four groups with an inner switch, which
    matches none of that switch's cases. *)
Definition unlistedSubcase (opcode : Z) : bool :=
  match Z.land opcode 0xF000 with
  | 0x0000 => noneOf [0x0000; 0x00E0; 0x00EE] opcode
  | 0x8000 => noneOf [0x0; 0x1; 0x2; 0x3; 0x4; 0x5; 0x6; 0x7; 0xE]
                     (Z.land opcode 0xF)
  | 0xE000 => noneOf [0x9E; 0xA1] (Z.land opcode 0xFF)
  | 0xF000 => noneOf [0x07; 0x0A; 0x15; 0x18; 0x1E; 0x29; 0x33; 0x55; 0x65]
                     (Z.land opcode 0xFF)
  | _ => false
  end.


(** The register file has its sixteen registers. *)
Definition registersOk (s : CPU.t) : Prop := length (CPU.v s) = 16%nat.

(** The [setPixel] calls a CPU state has seen. *)
Definition calls (s : CPU.t) : list (Z * Z) :=
  Renderer.setPixelCalls (CPU.renderer s).

(** The state a result carries, when it is not an exception. *)
Definition returned {A : Type} (r : result A) : option A :=
  match r with
  | Ok a => Some a
  | Throw _ => None
  end.

(** The animation frames of a run: [step] is called back once per entry of
    [clock], the successive values of [Date.now()]. *)
Fixpoint frames (clock : list Z) (g : Chip8.t) : result Chip8.t :=
  match clock with
  | [] => Ok g
  | dateNow :: later => g' ← Chip8.step dateNow g; frames later g'
  end.

(** The program counter a run ends with. *)
Definition pcAfter (r : result Chip8.t) : option jsnum :=
  (fun g => CPU.pc (Chip8.cpu g)) <$> returned r.

(** What the specification asks of [8xy4] at opcode [opcode] from state [s]:
    with [a] and [b] the values of registers [x] and [y], register [x] ends
    as [(a + b) mod 256] and register [0xF] as the carry. *)
Definition addsWithCarry (opcode : Z) (s : CPU.t) : Prop :=
  let x := CPU.opX opcode in
  let a := CPU.vget s x in
  let b := CPU.vget s (CPU.opY opcode) in
  exists s',
    CPU.executeInstruction opcode s = Ok s'
    /\ CPU.vget s' x = (a + b) mod 256
    /\ CPU.vget s' 0xF = (if a + b >? 255 then 1 else 0).

(** The origin a [setPixel] call of the draw instruction can use, when
    register [x] held [before] at the start of the instruction: that value;
    or, when [x] is the flag register, the flag's value at the time of the
    call, which the instruction has reset to 0 and sets to 1 on a
    collision. *)
Definition drawOrigin (x before origin : Z) : Prop :=
  if x =? 0xF then origin = 0 \/ origin = 1 else origin = before.

(** [c] are the arguments of a call that plots column [col] of row [row],
    both counted from the same origin. *)
Definition plotsAt (x before : Z) (col row : Z) (c : Z * Z) : Prop :=
  exists origin, drawOrigin x before origin /\ c = (origin + col, origin + row).

(** What the draw loops maintain. *)
Definition drawInv (x before : Z) (s : CPU.t) : Prop :=
  registersOk s /\ drawOrigin x before (CPU.vget s x).

(** ** Vocabulary of the further properties *)

(** [display[k]] read as a number: a missing entry counts as 0. *)
Definition pixel (r : Renderer.t) (k : Z) : Z := toInt (Renderer.display r !! k).

(** Every stored pixel is 0 or 1. *)
Definition bitsOnly (r : Renderer.t) : Prop :=
  map_Forall (fun _ b => b = 0 \/ b = 1) (Renderer.display r).

(** The elements of a typed array are bytes. *)
Definition bytes (arr : list Z) : Prop := Forall (fun b => 0 <= b < 256) arr.

(** The two typed arrays of a CPU: sixteen byte registers, and a memory of
    [size] bytes. *)
Definition arraysOk (size : nat) (s : CPU.t) : Prop :=
  registersOk s /\ bytes (CPU.v s)
  /\ length (CPU.memory s) = size /\ bytes (CPU.memory s).

(** [setPixel] applied to each pair of coordinates of a list, in order. *)
Definition toggleAll (coords : list (Z * Z)) (r : Renderer.t) : Renderer.t :=
  fold_left (fun r c => (Renderer.setPixel c.1 c.2 r).1) coords r.

(** The coordinates of [n] consecutive columns of one sprite row, from
    column [col] on, counted from the origin [a] on both axes. *)
Fixpoint columnCoords (a row col : Z) (n : nat) : list (Z * Z) :=
  match n with
  | O => []
  | S n' => (a + col, a + row) :: columnCoords a row (col + 1) n'
  end.

(** The coordinates the draw instruction plots for [n] rows from row [row]
    on, read from the memory [m] at [addr + row] and up: all eight columns
    of a row whose byte has bit 7 set, none of a row whose byte has not. *)
Fixpoint drawCoords (a : Z) (m : list Z) (addr row : Z) (n : nat) : list (Z * Z) :=
  match n with
  | O => []
  | S n' =>
      (if Z.land (toInt (u8get m (addr + row))) 0x80 >? 0
       then columnCoords a row 0 8 else [])
      ++ drawCoords a m addr (row + 1) n'
  end.

(** Whether the coordinates [coords] hit the cell [k] of a framebuffer of
    [cols] by [rows] an odd number of times. *)
Definition hitsOddly (cols rows k : Z) (coords : list (Z * Z)) : bool :=
  fold_right
    (fun c odd =>
       xorb (Renderer.wrap c.1 cols + Renderer.wrap c.2 rows * cols =? k) odd)
    false coords.

(** What the draw loops keep, from the state [s0] on, when [x] is not the
    flag register: the value [a] of register [x], the memory and [I]. *)
Definition drawFrame (x a : Z) (s0 s : CPU.t) : Prop :=
  CPU.vget s x = a /\ CPU.memory s = CPU.memory s0 /\ CPU.i s = CPU.i s0.

(** Two CPU states that differ at most in the program counter. *)
Definition sameButPc (s s' : CPU.t) : Prop :=
  CPU.renderer s' = CPU.renderer s /\ CPU.keyboard s' = CPU.keyboard s
  /\ CPU.speaker s' = CPU.speaker s /\ CPU.memory s' = CPU.memory s
  /\ CPU.v s' = CPU.v s /\ CPU.i s' = CPU.i s
  /\ CPU.delayTimer s' = CPU.delayTimer s
  /\ CPU.soundTimer s' = CPU.soundTimer s
  /\ CPU.stack s' = CPU.stack s /\ CPU.paused s' = CPU.paused s
  /\ CPU.speed s' = CPU.speed s /\ CPU.randomCalls s' = CPU.randomCalls s.

(** The column and row offsets at which the column loop reaches its
    [setPixel] call, for [n] iterations from column [col] on. *)
Fixpoint columnIndices (row col : Z) (n : nat) : list (Z * Z) :=
  match n with
  | O => []
  | S n' => (col, row) :: columnIndices row (col + 1) n'
  end.

(** The column and row offsets at which the two loops of the draw
    instruction reach the [setPixel] call, in the order of the calls, for
    [n] rows from row [row] on read from the memory [m] at [addr + row] and
    up: all eight columns of a row whose byte passes the test
    [(sprite & 0x80) > 0]. *)
Fixpoint drawIndices (m : list Z) (addr row : Z) (n : nat) : list (Z * Z) :=
  match n with
  | O => []
  | S n' =>
      (if Z.land (toInt (u8get m (addr + row))) 0x80 >? 0
       then columnIndices row 0 8 else [])
      ++ drawIndices m addr (row + 1) n'
  end.

(** * Properties *)

(** ** Bit fields of an opcode *)

Lemma land_shiftl_mask (a m n : Z) :
  0 <= n -> Z.land a (Z.shiftl m n) = Z.shiftl (Z.land (Z.shiftr a n) m) n.
Proof.
  intros Hn. apply Z.bits_inj'. intros k Hk.
  rewrite Z.land_spec.
  destruct (Z.lt_ge_cases k n) as [Hlt | Hge].
  - rewrite !Z.shiftl_spec_low by assumption.
    apply andb_false_r.
  - rewrite !Z.shiftl_spec by assumption.
    rewrite Z.land_spec, Z.shiftr_spec by lia.
    replace (k - n + n) with k by lia. reflexivity.
Qed.

Lemma land_mask4_range (a : Z) : 0 <= Z.land a 0xF < 16.
Proof.
  change 0xF with (Z.ones 4). rewrite Z.land_ones by lia.
  apply Z.mod_pos_bound. lia.
Qed.

Lemma nibble_at (opcode n : Z) :
  0 <= n ->
  Z.land opcode (Z.shiftl 0xF n) = Z.shiftl (Z.land (Z.shiftr opcode n) 0xF) n
  /\ Z.shiftr (Z.land opcode (Z.shiftl 0xF n)) n = Z.land (Z.shiftr opcode n) 0xF.
Proof.
  intros Hn. rewrite land_shiftl_mask by assumption. split; [reflexivity |].
  rewrite Z.shiftr_shiftl_l by assumption.
  rewrite Z.sub_diag. apply Z.shiftl_0_r.
Qed.

Lemma opX_range (opcode : Z) : 0 <= CPU.opX opcode < 16.
Proof.
  unfold CPU.opX. change 0x0F00 with (Z.shiftl 0xF 8).
  rewrite (proj2 (nibble_at opcode 8 ltac:(lia))). apply land_mask4_range.
Qed.

Lemma opY_range (opcode : Z) : 0 <= CPU.opY opcode < 16.
Proof.
  unfold CPU.opY. change 0x00F0 with (Z.shiftl 0xF 4).
  rewrite (proj2 (nibble_at opcode 4 ltac:(lia))). apply land_mask4_range.
Qed.

(** The selector of the outer switch is one of sixteen values, whatever the
    opcode. *)
Lemma highNibble_in_groups (opcode : Z) : In (Z.land opcode 0xF000) dispatchGroups.
Proof.
  change 0xF000 with (Z.shiftl 0xF 12).
  rewrite (proj1 (nibble_at opcode 12 ltac:(lia))).
  pose proof (land_mask4_range (Z.shiftr opcode 12)) as Hr.
  set (k := Z.land (Z.shiftr opcode 12) 0xF) in *.
  assert (Hk : k = 0 \/ k = 1 \/ k = 2 \/ k = 3 \/ k = 4 \/ k = 5 \/ k = 6
               \/ k = 7 \/ k = 8 \/ k = 9 \/ k = 10 \/ k = 11 \/ k = 12
               \/ k = 13 \/ k = 14 \/ k = 15) by lia.
  clearbody k. unfold dispatchGroups.
  repeat (destruct Hk as [-> | Hk]; [simpl; tauto |]).
  subst k. simpl. tauto.
Qed.

(** ** The opcode switch *)

(** Case analysis on the scrutinee of a [match] over integer literals: the
    binary digits of the scrutinee are split one at a time, and a branch is
    left as soon as [tac] closes it. *)
Ltac split_digits p tac :=
  destruct p as [p | p |]; cbn in *;
  [ first [ solve [tac] | split_digits p tac ]
  | first [ solve [tac] | split_digits p tac ]
  | first [ solve [tac] | idtac ] ].

Ltac split_literal z tac :=
  let p := fresh "p" in
  destruct z as [| p | p]; cbn in *;
  [ first [ solve [tac] | idtac ]
  | first [ solve [tac] | split_digits p tac ]
  | first [ solve [tac] | idtac ] ].

(** The three inner switches have no [default]: whatever the selector,
    they return. *)
Lemma executeInstruction_returns (opcode : Z) (s : CPU.t) :
  exists s', CPU.executeInstruction opcode s = Ok s'.
Proof.
  pose proof (highNibble_in_groups opcode) as Hin.
  unfold CPU.executeInstruction, CPU.opcodeSwitch.
  set (sel := Z.land opcode 0xF000) in *.
  set (low4 := Z.land opcode 0xF).
  set (low8 := Z.land opcode 0xFF).
  clearbody sel low4 low8.
  unfold dispatchGroups in Hin. simpl in Hin.
  repeat (destruct Hin as [<- | Hin]; [cbv beta iota zeta | ]);
    try contradiction; try (eexists; reflexivity).
  - split_literal opcode ltac:(try destruct (CPU.pop _); eexists; reflexivity).
  - split_literal low4 ltac:(eexists; reflexivity).
  - split_literal low8 ltac:(eexists; reflexivity).
  - split_literal low8 ltac:(eexists; reflexivity).
Qed.

(** The inner switches have no [default]: an unlisted sub-case falls
    through them. *)
Lemma unlisted_subcase_falls_through (opcode : Z) (s : CPU.t) :
  unlistedSubcase opcode = true ->
  CPU.executeInstruction opcode s = Ok (CPU.skip s).
Proof.
  intros H.
  pose proof (highNibble_in_groups opcode) as Hin.
  unfold CPU.executeInstruction, CPU.opcodeSwitch, unlistedSubcase in *.
  set (sel := Z.land opcode 0xF000) in *.
  set (low4 := Z.land opcode 0xF) in *.
  set (low8 := Z.land opcode 0xFF) in *.
  clearbody sel low4 low8.
  unfold dispatchGroups in Hin. simpl in Hin.
  repeat (destruct Hin as [<- | Hin]; [cbv beta iota zeta in * | ]);
    try contradiction; try discriminate H.
  - split_literal opcode ltac:(discriminate H || reflexivity).
  - split_literal low4 ltac:(discriminate H || reflexivity).
  - split_literal low8 ltac:(discriminate H || reflexivity).
  - split_literal low8 ltac:(discriminate H || reflexivity).
Qed.

(** C10.  An opcode of the [0x0000], [0x8000], [0xE000] or [0xF000] group
    whose low bits match no case of that group's inner switch raises no
    failure: [executeInstruction] returns a state whose program counter is
    the old one plus 2 and whose every other field is unchanged. *)
Theorem unlisted_subcase_only_advances (opcode : Z) (s : CPU.t) :
  unlistedSubcase opcode = true ->
  exists s',
    CPU.executeInstruction opcode s = Ok s'
    /\ CPU.pc s' = jsAdd (CPU.pc s) 2
    /\ (forall p, CPU.pc s = Num p -> CPU.pc s' = Num (p + 2))
    /\ sameButPc s s'.
Proof.
  intros H. exists (CPU.skip s).
  split; [apply unlisted_subcase_falls_through; exact H |].
  split; [reflexivity |]. split.
  - intros p Hp. unfold CPU.skip. cbn [CPU.pc CPU.with_pc]. rewrite Hp. reflexivity.
  - unfold sameButPc. repeat split.
Qed.

(** The examples of the claim, on a new CPU, whose program counter is
    0x200: each returns with the program counter at 0x202. *)
Lemma unlisted_subcase_only_advances_witness :
  let s := CPU.new (Renderer.new 10) Keyboard.new Speaker.new (fun _ => 7) in
  (exists s', CPU.executeInstruction 0x8128 s = Ok s'
              /\ CPU.pc s' = Num 0x202 /\ sameButPc s s')
  /\ (exists s', CPU.executeInstruction 0xE301 s = Ok s'
                 /\ CPU.pc s' = Num 0x202 /\ sameButPc s s')
  /\ (exists s', CPU.executeInstruction 0xF500 s = Ok s'
                 /\ CPU.pc s' = Num 0x202 /\ sameButPc s s').
Proof.
  intros s.
  destruct (unlisted_subcase_only_advances 0x8128 s eq_refl) as (s1 & H1 & _ & P1 & F1).
  destruct (unlisted_subcase_only_advances 0xE301 s eq_refl) as (s2 & H2 & _ & P2 & F2).
  destruct (unlisted_subcase_only_advances 0xF500 s eq_refl) as (s3 & H3 & _ & P3 & F3).
  split; [| split].
  - exists s1. split; [exact H1 |]. split; [exact (P1 0x200 eq_refl) | exact F1].
  - exists s2. split; [exact H2 |]. split; [exact (P2 0x200 eq_refl) | exact F2].
  - exists s3. split; [exact H3 |]. split; [exact (P3 0x200 eq_refl) | exact F3].
Defined.

(** ** The frame loop *)

Lemma cycleLoop_paused exec (n : nat) (s : CPU.t) :
  CPU.paused s = true -> CPU.cycleLoop exec n s = Ok s.
Proof.
  intros Hp. induction n as [| n IH]; simpl; [reflexivity |].
  rewrite Hp. simpl. exact IH.
Qed.

(** An exception of the first instruction of a frame leaves the loop. *)
Lemma cycleLoop_throw exec (n : nat) (s : CPU.t) (e : error) :
  CPU.paused s = false ->
  exec (CPU.fetch s) s = Throw e ->
  CPU.cycleLoop exec (S n) s = Throw e.
Proof. intros Hp He. simpl. rewrite Hp, He. reflexivity. Qed.

(** An exception raised at any iteration is the result of the frame: no
    later instruction runs, no timer is updated, nothing is rendered. *)
Lemma cycleLoop_throw_later exec (n k : nat) (s s1 : CPU.t) (e : error) :
  CPU.cycleLoop exec n s = Ok s1 ->
  CPU.paused s1 = false ->
  exec (CPU.fetch s1) s1 = Throw e ->
  CPU.cycleLoop exec (n + S k) s = Throw e.
Proof.
  revert s. induction n as [| n IH]; intros s Hrun Hp He.
  - simpl in Hrun. injection Hrun as ->. now apply cycleLoop_throw.
  - change (S n + S k)%nat with (S (n + S k)).
    simpl in Hrun |- *.
    destruct (if CPU.paused s then Ok s else exec (CPU.fetch s) s) as [s2 | e2];
      simpl in Hrun |- *; [| discriminate].
    now apply IH.
Qed.





(** C8.  While the paused flag is set, [cycle] returns, having fetched and
    executed no instruction and advanced no timer: only the speaker and the
    canvas are driven. *)
Theorem paused_cycle_is_frozen (s : CPU.t) :
  CPU.paused s = true ->
  exists s',
    CPU.cycle s = Ok s'
    /\ s' = CPU.with_renderer (Renderer.render (CPU.renderer s)) (CPU.playSound s)
    /\ CPU.pc s' = CPU.pc s /\ CPU.v s' = CPU.v s /\ CPU.i s' = CPU.i s
    /\ CPU.memory s' = CPU.memory s /\ CPU.stack s' = CPU.stack s
    /\ CPU.delayTimer s' = CPU.delayTimer s
    /\ CPU.soundTimer s' = CPU.soundTimer s
    /\ CPU.paused s' = true
    /\ CPU.randomCalls s' = CPU.randomCalls s
    /\ calls s' = calls s
    /\ Renderer.display (CPU.renderer s') = Renderer.display (CPU.renderer s).
Proof.
  intros Hp. eexists. split.
  - unfold CPU.cycle, CPU.cycleWith.
    rewrite cycleLoop_paused by assumption. simpl. rewrite Hp. reflexivity.
  - unfold CPU.playSound, calls.
    destruct (CPU.soundTimer s >? 0); simpl; rewrite ?Hp; repeat split; reflexivity.
Qed.

Lemma paused_cycle_is_frozen_witness :
  let s := CPU.with_delayTimer 3
             (CPU.with_paused true
                (CPU.new (Renderer.new 10) Keyboard.new Speaker.new (fun _ => 7))) in
  exists s', CPU.cycle s = Ok s' /\ CPU.delayTimer s' = 3 /\ CPU.pc s' = Num 0x200.
Proof.
  intros s.
  destruct (paused_cycle_is_frozen s eq_refl)
    as (s' & Hc & _ & Hpc & _ & _ & _ & _ & Hd & _).
  exists s'. split; [exact Hc |]. split; [exact Hd | exact Hpc].
Defined.

(** ** Typed-array reads and writes *)

Lemma u8set_length (arr : list Z) (idx val : Z) :
  length (u8set arr idx val) = length arr.
Proof. unfold u8set. destruct (idx <? 0); [reflexivity | apply length_insert]. Qed.

Lemma u8get_u8set_eq (arr : list Z) (idx val : Z) :
  0 <= idx < Z.of_nat (length arr) ->
  u8get (u8set arr idx val) idx = Some (val mod 256).
Proof.
  intros Hr. unfold u8get, u8set.
  destruct (Z.ltb_spec idx 0) as [Hneg | _]; [lia |].
  apply list_lookup_insert_eq. lia.
Qed.

Lemma u8get_u8set_ne (arr : list Z) (idx j val : Z) :
  idx <> j -> u8get (u8set arr j val) idx = u8get arr idx.
Proof.
  intros Hne. unfold u8get, u8set.
  destruct (Z.ltb_spec idx 0) as [| Hi]; [reflexivity |].
  destruct (Z.ltb_spec j 0) as [| Hj]; [reflexivity |].
  apply list_lookup_insert_ne. lia.
Qed.

Lemma u8get_None (arr : list Z) (idx : Z) :
  Z.of_nat (length arr) <= idx -> u8get arr idx = None.
Proof.
  intros Hr. unfold u8get.
  destruct (Z.ltb_spec idx 0) as [| Hi]; [reflexivity |].
  apply lookup_ge_None. lia.
Qed.

Lemma u8set_out_of_range (arr : list Z) (idx val : Z) :
  Z.of_nat (length arr) <= idx -> u8set arr idx val = arr.
Proof.
  intros Hr. unfold u8set.
  destruct (Z.ltb_spec idx 0) as [| Hi]; [reflexivity |].
  apply list_insert_ge. lia.
Qed.

Lemma vget_vset_eq (s : CPU.t) (idx val : Z) :
  0 <= idx < Z.of_nat (length (CPU.v s)) ->
  CPU.vget (CPU.vset idx val s) idx = val mod 256.
Proof.
  intros Hr. unfold CPU.vget, CPU.vset. simpl.
  rewrite u8get_u8set_eq by assumption. reflexivity.
Qed.

Lemma vget_vset_ne (s : CPU.t) (idx j val : Z) :
  idx <> j -> CPU.vget (CPU.vset j val s) idx = CPU.vget s idx.
Proof.
  intros Hne. unfold CPU.vget, CPU.vset. simpl.
  rewrite u8get_u8set_ne by assumption. reflexivity.
Qed.

Lemma vset_length (s : CPU.t) (idx val : Z) :
  length (CPU.v (CPU.vset idx val s)) = length (CPU.v s).
Proof. unfold CPU.vset. simpl. apply u8set_length. Qed.

Lemma vget_skip (s : CPU.t) (idx : Z) : CPU.vget (CPU.skip s) idx = CPU.vget s idx.
Proof. reflexivity. Qed.

(** ** Arithmetic: 8xy4 *)

(** The state [8xy4] returns. *)
Lemma execute_8xy4 (opcode : Z) (s : CPU.t) :
  Z.land opcode 0xF000 = 0x8000 -> Z.land opcode 0xF = 0x4 ->
  let x := CPU.opX opcode in
  let sum := CPU.vget s x + CPU.vget s (CPU.opY opcode) in
  let s1 := CPU.vset 0xF 0 (CPU.vset x sum (CPU.skip s)) in
  CPU.executeInstruction opcode s
  = Ok (CPU.vset x sum (if sum >? 0xFF then CPU.vset 0xF 1 s1 else s1)).
Proof.
  intros Hhigh Hlow. unfold CPU.executeInstruction, CPU.opcodeSwitch.
  rewrite Hhigh, Hlow. reflexivity.
Qed.

(** C6, as amended.  With [a] and [b] the values of registers [x] and [y],
    [8xy4] leaves register [x] equal to [(a + b) mod 256]; and, when [x] is
    not [0xF], register [0xF] equal to 1 if [a + b > 255] and to 0
    otherwise.  (When [x] is [0xF] the sum is stored after the flag, in the
    same register.) *)
Theorem add_sets_sum_and_carry (opcode : Z) (s : CPU.t) :
  registersOk s ->
  Z.land opcode 0xF000 = 0x8000 -> Z.land opcode 0xF = 0x4 ->
  let x := CPU.opX opcode in
  let a := CPU.vget s x in
  let b := CPU.vget s (CPU.opY opcode) in
  exists s',
    CPU.executeInstruction opcode s = Ok s'
    /\ CPU.vget s' x = (a + b) mod 256
    /\ (x <> 0xF -> CPU.vget s' 0xF = (if a + b >? 255 then 1 else 0)).
Proof.
  intros Hok Hhigh Hlow x a b.
  pose proof (opX_range opcode) as Hx. fold x in Hx.
  unfold registersOk in Hok.
  eexists. split; [apply execute_8xy4; assumption |].
  fold x a b.
  split.
  - apply vget_vset_eq.
    destruct (a + b >? 255); rewrite ?vset_length; simpl; lia.
  - intros Hne. rewrite vget_vset_ne by (intros E; apply Hne; symmetry; exact E).
    destruct (a + b >? 255).
    + rewrite vget_vset_eq by (rewrite !vset_length; simpl; lia). reflexivity.
    + rewrite vget_vset_eq by (rewrite !vset_length; simpl; lia). reflexivity.
Qed.

(** The scenario of the specification: registers 1 = 0xFF and 2 = 0x01,
    opcode [0x8124]. *)
Lemma add_sets_sum_and_carry_witness :
  let s := CPU.vset 2 0x01
             (CPU.vset 1 0xFF
                (CPU.new (Renderer.new 10) Keyboard.new Speaker.new (fun _ => 7))) in
  exists s',
    CPU.executeInstruction 0x8124 s = Ok s'
    /\ CPU.vget s' 1 = 0x00 /\ CPU.vget s' 0xF = 1.
Proof.
  intros s.
  destruct (add_sets_sum_and_carry 0x8124 s eq_refl eq_refl eq_refl)
    as (s' & Hrun & Hsum & Hflag).
  exists s'. split; [exact Hrun |]. split.
  - exact Hsum.
  - apply Hflag. vm_compute. discriminate.
Defined.

(** C6, as stated, fails when the destination is the flag register:
    [0x8F04] with 1 in registers [0xF] and [0] leaves 2 in register [0xF],
    not the carry 0. *)
Lemma add_flag_destination_counterexample :
  let s := CPU.vset 0 1
             (CPU.vset 0xF 1
                (CPU.new (Renderer.new 10) Keyboard.new Speaker.new (fun _ => 7))) in
  CPU.vget s (CPU.opX 0x8F04) = 1 /\ CPU.vget s (CPU.opY 0x8F04) = 1
  /\ (exists s', CPU.executeInstruction 0x8F04 s = Ok s' /\ CPU.vget s' 0xF = 2)
  /\ ~ addsWithCarry 0x8F04 s.
Proof.
  intros s. split; [reflexivity |]. split; [reflexivity |]. split.
  - eexists. split; reflexivity.
  - intros (s' & Hrun & _ & Hflag).
    vm_compute in Hrun. injection Hrun as <-.
    vm_compute in Hflag. discriminate Hflag.
Qed.

(** ** Loading a program *)

Lemma copyInto_length (bytes : list Z) (base loc : Z) (m : list Z) :
  length (CPU.copyInto base loc bytes m) = length m.
Proof.
  revert loc m. induction bytes as [| b rest IH]; intros loc m; simpl.
  - reflexivity.
  - rewrite IH. apply u8set_length.
Qed.

(** A copy that starts at or past the end of the array writes nothing. *)
Lemma copyInto_out_of_range (bytes : list Z) (base loc : Z) (m : list Z) :
  Z.of_nat (length m) <= base + loc ->
  CPU.copyInto base loc bytes m = m.
Proof.
  revert loc. induction bytes as [| b rest IH]; intros loc Hr; simpl.
  - reflexivity.
  - rewrite u8set_out_of_range by assumption. apply IH. lia.
Qed.

(** A copy leaves the cells below its starting point alone. *)
Lemma copyInto_below (bytes : list Z) (base loc idx : Z) (m : list Z) :
  idx < base + loc ->
  u8get (CPU.copyInto base loc bytes m) idx = u8get m idx.
Proof.
  revert loc m. induction bytes as [| b rest IH]; intros loc m Hlt; simpl.
  - reflexivity.
  - rewrite IH by lia. apply u8get_u8set_ne. lia.
Qed.

Lemma copyInto_lookup (bytes : list Z) (base loc : Z) (m : list Z) (k : nat) (b : Z) :
  0 <= base + loc ->
  base + loc + Z.of_nat (length bytes) <= Z.of_nat (length m) ->
  bytes !! k = Some b ->
  u8get (CPU.copyInto base loc bytes m) (base + loc + Z.of_nat k) = Some (b mod 256).
Proof.
  revert loc m k.
  induction bytes as [| b0 rest IH]; intros loc m k Hlo Hhi Hk; [discriminate |].
  cbn [length] in Hhi. cbn [CPU.copyInto].
  destruct k as [| k]; cbn [lookup list_lookup] in Hk.
  - injection Hk as ->. rewrite copyInto_below by lia.
    rewrite Z.add_0_r. apply u8get_u8set_eq. lia.
  - replace (base + loc + Z.of_nat (S k))
      with (base + (loc + 1) + Z.of_nat k) by lia.
    apply IH; [lia | rewrite u8set_length; lia | exact Hk].
Qed.

(** On a memory of the documented size the program is copied verbatim:
    the claim C1 holds as soon as the array has its 4096 bytes. *)
Lemma program_load_verbatim_when_allocated (program : list Z) (s : CPU.t)
    (loc : nat) (b : Z) :
  length (CPU.memory s) = 4096%nat ->
  (length program <= 3584)%nat ->
  program !! loc = Some b ->
  u8get (CPU.memory (CPU.loadProgramIntoMemory program s)) (0x200 + Z.of_nat loc)
  = Some (b mod 256).
Proof.
  intros Hm Hp Hb. unfold CPU.loadProgramIntoMemory. simpl.
  replace (512 + Z.of_nat loc) with (512 + 0 + Z.of_nat loc) by lia.
  apply copyInto_lookup; [lia | lia | exact Hb].
Qed.

(** C1, on the code.  The constructor allocates 16 bytes of memory, not
    4096, so every write of [loadProgramIntoMemory] falls outside the array
    and is dropped: the memory of a new CPU is unchanged by the load, and
    reading [memory[0x200 + loc]] yields [undefined], whatever the program. *)
Theorem program_load_misses_memory (renderer : Renderer.t) (keyboard : Keyboard.t)
    (speaker : Speaker.t) (mathRandom : nat -> Z) (program : list Z) :
  let s := CPU.loadProgramIntoMemory program
             (CPU.new renderer keyboard speaker mathRandom) in
  CPU.memory s = replicate 16 0
  /\ (forall loc : nat, u8get (CPU.memory s) (0x200 + Z.of_nat loc) = None).
Proof.
  assert (Hm : CPU.memory (CPU.loadProgramIntoMemory program
                 (CPU.new renderer keyboard speaker mathRandom))
               = replicate 16 0).
  { unfold CPU.loadProgramIntoMemory. simpl.
    apply (copyInto_out_of_range program 512 0). simpl. lia. }
  intros s. subst s. rewrite Hm. split; [reflexivity |].
  intros loc. apply u8get_None. simpl. lia.
Qed.

(** ** Drawing *)

Lemma calls_plot (x col row : Z) (s : CPU.t) :
  calls (CPU.plot x col row s)
  = calls s ++ [(CPU.vget s x + col, CPU.vget s x + row)].
Proof.
  unfold CPU.plot, Renderer.setPixel, calls. simpl.
  destruct (Z.lxor _ 1 =? 0); reflexivity.
Qed.

(** One sprite row makes as many [setPixel] calls as the column loop has
    iterations when bit 7 of the row byte is set, and none otherwise: the
    other seven bits are never looked at. *)
Lemma drawCols_call_count (x row sprite col : Z) (n : nat) (s : CPU.t) :
  length (calls (CPU.drawCols x row sprite col n s))
  = (length (calls s) + (if Z.land sprite 0x80 >? 0 then n else 0))%nat.
Proof.
  revert col s. induction n as [| n IH]; intros col s; simpl.
  - destruct (Z.land sprite 128 >? 0); lia.
  - rewrite IH. destruct (Z.land sprite 128 >? 0); [| lia].
    rewrite calls_plot, length_app. simpl. lia.
Qed.

(** C2, on the code.  The sprite is shifted after the column loop, not
    inside it, so all eight columns test bit 7 of the row byte.  With the
    font loaded, [I = 0] and register 0 at 0, [0xD001] draws the row [0xF0]
    (four bits set) with eight [setPixel] calls, at columns 0 to 7; with
    [I = 5] the row is [0x20] (bit 5 set) and no call is made. *)
Theorem draw_tests_only_bit_7 :
  let s := CPU.loadSpritesIntoMemory
             (CPU.new (Renderer.new 10) Keyboard.new Speaker.new (fun _ => 7)) in
  u8get (CPU.memory s) 0 = Some 0xF0
  /\ (calls <$> returned (CPU.executeInstruction 0xD001 s))
     = Some [(0, 0); (1, 0); (2, 0); (3, 0); (4, 0); (5, 0); (6, 0); (7, 0)]
  /\ u8get (CPU.memory s) 5 = Some 0x20
  /\ (calls <$> returned (CPU.executeInstruction 0xD001 (CPU.with_i 5 s)))
     = Some [].
Proof. vm_compute. repeat split; reflexivity. Qed.

(** ** The framebuffer *)

Lemma lxor_1_changes (z : Z) : Z.lxor z 1 <> z.
Proof.
  intros E. assert (H : Z.lxor z (Z.lxor z 1) = Z.lxor z z) by (rewrite E; reflexivity).
  rewrite <- Z.lxor_assoc, Z.lxor_nilpotent in H. discriminate H.
Qed.

(** C3, on the code.  On the 64 by 32 framebuffer, [setPixel(-1, 10)] and
    [setPixel(63, 10)] toggle the same cell, 703, and return the same value.
    But [setPixel(64, 10)] is not wrapped, since 64 is not greater than
    [cols]: it toggles cell 704, which is pixel (0, 11), where
    [setPixel(0, 10)] toggles cell 640; the two resulting framebuffers
    differ, whatever the framebuffer before. *)
Theorem setPixel_column_64_not_wrapped (scale : Z) (display : gmap Z Z)
    (canvas log : list (Z * Z)) :
  let r := Renderer.mk 64 32 scale display canvas log in
  (Renderer.display (Renderer.setPixel (-1) 10 r).1
   = Renderer.display (Renderer.setPixel 63 10 r).1
   /\ (Renderer.setPixel (-1) 10 r).2 = (Renderer.setPixel 63 10 r).2)
  /\ Renderer.pixelLoc r 64 10 = 704
  /\ Renderer.pixelLoc r 0 10 = 640
  /\ Renderer.display (Renderer.setPixel 64 10 r).1
     <> Renderer.display (Renderer.setPixel 0 10 r).1.
Proof.
  intros r. split; [split; reflexivity |].
  split; [reflexivity |]. split; [reflexivity |].
  unfold Renderer.setPixel.
  change (Renderer.pixelLoc r 64 10) with 704.
  change (Renderer.pixelLoc r 0 10) with 640.
  simpl. intros E.
  assert (H : (<[704 := Z.lxor (toInt (display !! 704)) 1]> display) !! 704
              = (<[640 := Z.lxor (toInt (display !! 640)) 1]> display) !! 704)
    by (rewrite E; reflexivity).
  rewrite lookup_insert_eq, lookup_insert_ne in H by discriminate.
  destruct (display !! 704) as [z |] eqn:Ed; simpl in H.
  - injection H as H. exact (lxor_1_changes z H).
  - discriminate H.
Qed.

(** ** The frame timer *)

(** With [fps = 60], a frame is due when 17 ms or more have passed since
    [then].  ([Date.now()] is a whole number of milliseconds, and no whole
    number lies between 1000/60 and the floating-point value the source
    compares with, so the rational comparison decides the same.) *)
Lemma due_at_60 (elapsed : Z) :
  Chip8.due elapsed ((1000 # 1) / inject_Z 60)%Q = true <-> 17 <= elapsed.
Proof.
  unfold Chip8.due, Qle_bool. simpl.
  rewrite negb_true_iff, Z.leb_gt. lia.
Qed.

Lemma cycleLoop_returns (n : nat) (s : CPU.t) :
  exists s', CPU.cycleLoop CPU.executeInstruction n s = Ok s'.
Proof.
  revert s. induction n as [| n IH]; intros s; simpl.
  - eexists. reflexivity.
  - destruct (CPU.paused s); simpl; [apply IH |].
    destruct (executeInstruction_returns (CPU.fetch s) s) as [s1 ->].
    simpl. apply IH.
Qed.

Lemma cycle_returns (s : CPU.t) : exists s', CPU.cycle s = Ok s'.
Proof.
  unfold CPU.cycle, CPU.cycleWith.
  destruct (cycleLoop_returns (Z.to_nat (CPU.speed s)) s) as [s1 ->].
  simpl. eexists. reflexivity.
Qed.

(** [step] assigns [now] and [elapsed], never [then]: the reference point
    of the comparison stays the time of [init]. *)
Lemma step_keeps_then (dateNow : Z) (g : Chip8.t) :
  exists g',
    Chip8.step dateNow g = Ok g'
    /\ Chip8.then_ g' = Chip8.then_ g
    /\ Chip8.fpsInterval g' = Chip8.fpsInterval g.
Proof.
  unfold Chip8.step.
  destruct (Chip8.due _ _).
  - destruct (cycle_returns (Chip8.cpu g)) as [c ->]. simpl.
    eexists. repeat split.
  - simpl. eexists. repeat split.
Qed.

(** Hence every callback that comes 17 ms or more after [init] runs a
    frame, however close it is to the one before. *)
Lemma step_runs_cycle_when_late (dateNow : Z) (g : Chip8.t) :
  Chip8.fpsInterval g = ((1000 # 1) / inject_Z 60)%Q ->
  Chip8.then_ g + 17 <= dateNow ->
  Chip8.cpu <$> returned (Chip8.step dateNow g) = returned (CPU.cycle (Chip8.cpu g)).
Proof.
  intros Hi Hlate. unfold Chip8.step. rewrite Hi.
  rewrite (proj2 (due_at_60 (dateNow - Chip8.then_ g))) by lia.
  destruct (CPU.cycle (Chip8.cpu g)); reflexivity.
Qed.

(** C4, on the code.  After [init] at time 0, a callback at 16 ms runs no
    frame, one at 17 ms runs a frame (the ten instructions move the program
    counter from 0x200 to 0x214), and one at 18 ms, a single millisecond
    after that processed frame, runs a frame again (0x228): [then] is still
    0, so the elapsed time is measured from [init], not from the previous
    processed frame. *)
Theorem frame_runs_one_millisecond_after_frame :
  let g := Chip8.init 0 (Chip8.start (fun _ => 7)) in
  pcAfter (frames [] g) = Some (Num 0x200)
  /\ pcAfter (frames [16] g) = Some (Num 0x200)
  /\ pcAfter (frames [17] g) = Some (Num 0x214)
  /\ pcAfter (frames [17; 18] g) = Some (Num 0x228)
  /\ Chip8.then_ <$> returned (frames [17; 18] g) = Some 0.
Proof. vm_compute. repeat split; reflexivity. Qed.

(** ** The key wait *)

Lemma KEYMAP_range (which k : Z) :
  Keyboard.KEYMAP !! which = Some k -> 0 <= k < 16.
Proof.
  unfold Keyboard.KEYMAP. intros H.
  apply elem_of_list_to_map_2 in H.
  repeat (apply elem_of_cons in H as [H | H]; [injection H as -> ->; lia |]).
  apply elem_of_nil in H. contradiction.
Qed.

(** A key-down whose key value is not 0 resolves a pending wait: the
    register captured by the callback receives the key value, the paused
    flag is cleared and so is the callback. *)
Lemma nonzero_key_resolves_wait (which k x : Z) (s : CPU.t) :
  Keyboard.KEYMAP !! which = Some k -> k <> 0 ->
  Keyboard.onNextKeyPress (CPU.keyboard s) = Some (onNextKeyPressed x) ->
  registersOk s -> 0 <= x < 16 ->
  let s' := onKeyDown which s in
  CPU.vget s' x = k /\ CPU.paused s' = false
  /\ Keyboard.onNextKeyPress (CPU.keyboard s') = None.
Proof.
  intros Hmap Hk Hcb Hok Hx. pose proof (KEYMAP_range which k Hmap) as Hr.
  unfold onKeyDown. rewrite Hmap. simpl. rewrite Hcb.
  destruct (Z.eqb_spec k 0) as [| _]; [contradiction |]. simpl.
  repeat split.
  unfold CPU.vget. simpl. rewrite u8get_u8set_eq by (rewrite Hok; lia).
  simpl. apply Z.mod_small. lia.
Qed.

(** C5, on the code.  The physical key 88 (X) has the key value 0, and 0 is
    falsy in the guard [onNextKeyPress !== null && key]: the key-down only
    records the key as held.  A pending wait stays pending: the paused flag,
    the registers and the callback are as before. *)
Theorem key_zero_does_not_resolve_wait (s : CPU.t) :
  Keyboard.KEYMAP !! 88 = Some 0x0
  /\ onKeyDown 88 s
     = CPU.with_keyboard (Keyboard.setPressed (Some 0x0) true (CPU.keyboard s)) s
  /\ CPU.paused (onKeyDown 88 s) = CPU.paused s
  /\ CPU.v (onKeyDown 88 s) = CPU.v s
  /\ Keyboard.onNextKeyPress (CPU.keyboard (onKeyDown 88 s))
     = Keyboard.onNextKeyPress (CPU.keyboard s).
Proof.
  assert (Hmap : Keyboard.KEYMAP !! 88 = Some 0) by (vm_compute; reflexivity).
  assert (Hrun : onKeyDown 88 s
                 = CPU.with_keyboard
                     (Keyboard.setPressed (Some 0) true (CPU.keyboard s)) s).
  { unfold onKeyDown. rewrite Hmap. simpl.
    destruct (Keyboard.onNextKeyPress (CPU.keyboard s)); reflexivity. }
  split; [exact Hmap |]. split; [exact Hrun |].
  rewrite Hrun. repeat split.
Qed.

(** ** The origin of a drawn sprite *)

(** A plot leaves alone what the next row is read from. *)
Lemma plot_keeps_sprite_source (x col row : Z) (s : CPU.t) :
  CPU.memory (CPU.plot x col row s) = CPU.memory s
  /\ CPU.i (CPU.plot x col row s) = CPU.i s.
Proof.
  unfold CPU.plot. destruct (Renderer.setPixel _ _ _) as [r erased].
  destruct erased; split; reflexivity.
Qed.

Section DrawLoops.

Variables x before : Z.

Lemma plot_keeps_drawInv (col row : Z) (s : CPU.t) :
  drawInv x before s -> drawInv x before (CPU.plot x col row s).
Proof.
  intros [Hok Ho]. unfold CPU.plot.
  destruct (Renderer.setPixel _ _ _) as [r erased].
  destruct erased; [| split; assumption].
  split.
  - unfold registersOk in *. rewrite vset_length. exact Hok.
  - unfold drawOrigin in *. destruct (Z.eqb_spec x 15) as [-> | Hne].
    + right. rewrite vget_vset_eq by (simpl; unfold registersOk in Hok; lia).
      reflexivity.
    + rewrite vget_vset_ne by assumption. exact Ho.
Qed.

Lemma calls_plot_at (col row : Z) (s : CPU.t) :
  drawInv x before s ->
  exists c, calls (CPU.plot x col row s) = calls s ++ [c]
            /\ plotsAt x before col row c.
Proof.
  intros [_ Ho]. eexists. split; [apply calls_plot |].
  exists (CPU.vget s x). split; [exact Ho | reflexivity].
Qed.

Lemma drawCols_plots (row sprite : Z) (n : nat) (col : Z) (s : CPU.t) :
  drawInv x before s ->
  exists plotted,
    calls (CPU.drawCols x row sprite col n s) = calls s ++ plotted
    /\ Forall2 (fun c cr => plotsAt x before cr.1 cr.2 c) plotted
         (if Z.land sprite 0x80 >? 0 then columnIndices row col n else [])
    /\ drawInv x before (CPU.drawCols x row sprite col n s)
    /\ CPU.memory (CPU.drawCols x row sprite col n s) = CPU.memory s
    /\ CPU.i (CPU.drawCols x row sprite col n s) = CPU.i s.
Proof.
  revert col s. induction n as [| n IH]; intros col s Hinv.
  - exists []. cbn [CPU.drawCols columnIndices]. rewrite app_nil_r.
    split; [reflexivity |]. split; [destruct (_ >? _); constructor |].
    split; [exact Hinv | split; reflexivity].
  - cbn [CPU.drawCols columnIndices].
    destruct (Z.land sprite 128 >? 0) eqn:Hbit.
    + destruct (calls_plot_at col row s Hinv) as (c & Hc & Hat).
      destruct (plot_keeps_sprite_source x col row s) as (Hm1 & Hi1).
      destruct (IH (col + 1) _ (plot_keeps_drawInv col row s Hinv))
        as (rest & Hrest & Hall & Hinv' & Hm & Hi).
      rewrite ?Hbit in Hall.
      exists (c :: rest). split; [| split; [| split; [| split]]].
      * rewrite Hrest, Hc, <- app_assoc. reflexivity.
      * constructor; [exact Hat | exact Hall].
      * exact Hinv'.
      * rewrite Hm. exact Hm1.
      * rewrite Hi. exact Hi1.
    + destruct (IH (col + 1) s Hinv) as (rest & Hrest & Hall & Hinv' & Hm & Hi).
      rewrite ?Hbit in Hall.
      exists rest. split; [exact Hrest |]. split; [exact Hall |].
      split; [exact Hinv' | split; assumption].
Qed.

Lemma drawRows_plots (n : nat) (row : Z) (s : CPU.t) :
  drawInv x before s ->
  exists plotted,
    calls (CPU.drawRows x row n s) = calls s ++ plotted
    /\ Forall2 (fun c cr => plotsAt x before cr.1 cr.2 c) plotted
         (drawIndices (CPU.memory s) (CPU.i s) row n).
Proof.
  revert row s. induction n as [| n IH]; intros row s Hinv.
  - exists []. cbn [CPU.drawRows drawIndices]. rewrite app_nil_r.
    split; [reflexivity | constructor].
  - cbn [CPU.drawRows drawIndices].
    set (sprite := toInt (u8get (CPU.memory s) (CPU.i s + row))).
    destruct (drawCols_plots row sprite 8 0 s Hinv)
      as (first & Hfirst & Hall1 & Hinv1 & Hm1 & Hi1).
    destruct (IH (row + 1) _ Hinv1) as (rest & Hrest & Hall2).
    rewrite Hm1, Hi1 in Hall2.
    exists (first ++ rest). split.
    + rewrite Hrest, Hfirst, <- app_assoc. reflexivity.
    + apply Forall2_app; assumption.
Qed.

(** When [x] is not the flag register the origin is the value of register
    [x] before the instruction, so the offsets fix the arguments. *)
Lemma plots_from_fixed_origin (plotted idx : list (Z * Z)) :
  x <> 0xF ->
  Forall2 (fun c cr => plotsAt x before cr.1 cr.2 c) plotted idx ->
  plotted = map (fun cr => (before + cr.1, before + cr.2)) idx.
Proof.
  intros Hx Hall. induction Hall as [| c cr plotted idx Hat _ IH]; [reflexivity |].
  cbn [map]. rewrite <- IH. f_equal.
  destruct Hat as (origin & Ho & ->). unfold drawOrigin in Ho.
  destruct (Z.eqb_spec x 15) as [E | _]; [contradiction |].
  rewrite Ho. reflexivity.
Qed.

End DrawLoops.

(** *** Registers the draw instruction does not read *)

Lemma u8set_u8set_ne (arr : list Z) (j k a b : Z) :
  j <> k -> u8set (u8set arr k b) j a = u8set (u8set arr j a) k b.
Proof.
  intros Hne. unfold u8set.
  destruct (Z.ltb_spec j 0) as [| Hj]; [reflexivity |].
  destruct (Z.ltb_spec k 0) as [| Hk]; [reflexivity |].
  apply list_insert_insert_ne. lia.
Qed.

Lemma u8set_u8set_eq (arr : list Z) (j a b : Z) :
  u8set (u8set arr j b) j a = u8set arr j a.
Proof.
  unfold u8set. destruct (j <? 0); [reflexivity |].
  apply list_insert_insert_eq.
Qed.

Lemma vset_vset_ne (j k a b : Z) (s : CPU.t) :
  j <> k -> CPU.vset j a (CPU.vset k b s) = CPU.vset k b (CPU.vset j a s).
Proof.
  intros Hne. unfold CPU.vset, CPU.with_v. simpl.
  rewrite (u8set_u8set_ne (CPU.v s) j k a b Hne). reflexivity.
Qed.

Lemma vset_vset_eq (j a b : Z) (s : CPU.t) :
  CPU.vset j a (CPU.vset j b s) = CPU.vset j a s.
Proof.
  unfold CPU.vset, CPU.with_v. simpl. rewrite u8set_u8set_eq. reflexivity.
Qed.

Section DrawIgnores.

Variables x y b : Z.
Hypothesis y_not_x : y <> x.
Hypothesis y_not_flag : y <> 0xF.

Lemma plot_vset (col row : Z) (s : CPU.t) :
  CPU.plot x col row (CPU.vset y b s) = CPU.vset y b (CPU.plot x col row s).
Proof.
  unfold CPU.plot.
  rewrite (vget_vset_ne s x y b) by (intros E; apply y_not_x; symmetry; exact E).
  change (CPU.renderer (CPU.vset y b s)) with (CPU.renderer s).
  destruct (Renderer.setPixel _ _ _) as [r erased].
  change (CPU.with_renderer r (CPU.vset y b s))
    with (CPU.vset y b (CPU.with_renderer r s)).
  destruct erased; [| reflexivity].
  apply vset_vset_ne. intros E. apply y_not_flag. symmetry. exact E.
Qed.

Lemma drawCols_vset (row sprite : Z) (n : nat) (col : Z) (s : CPU.t) :
  CPU.drawCols x row sprite col n (CPU.vset y b s)
  = CPU.vset y b (CPU.drawCols x row sprite col n s).
Proof.
  revert col s. induction n as [| n IH]; intros col s; [reflexivity |].
  cbn [CPU.drawCols]. destruct (Z.land sprite 128 >? 0).
  - rewrite plot_vset. apply IH.
  - apply IH.
Qed.

Lemma drawRows_vset (n : nat) (row : Z) (s : CPU.t) :
  CPU.drawRows x row n (CPU.vset y b s) = CPU.vset y b (CPU.drawRows x row n s).
Proof.
  revert row s. induction n as [| n IH]; intros row s; [reflexivity |].
  cbn [CPU.drawRows].
  change (CPU.memory (CPU.vset y b s)) with (CPU.memory s).
  change (CPU.i (CPU.vset y b s)) with (CPU.i s).
  rewrite drawCols_vset. apply IH.
Qed.

End DrawIgnores.

(** The state the draw instruction returns. *)
Lemma execute_Dxyn (opcode : Z) (s : CPU.t) :
  Z.land opcode 0xF000 = 0xD000 ->
  CPU.executeInstruction opcode s
  = Ok (CPU.drawRows (CPU.opX opcode) 0 (Z.to_nat (Z.land opcode 0xF))
          (CPU.vset 0xF 0 (CPU.skip s))).
Proof.
  intros Hhigh. unfold CPU.executeInstruction, CPU.opcodeSwitch. rewrite Hhigh. reflexivity.
Qed.

(** The [setPixel] calls of a draw do not depend on a register other than
    [x]: whatever is written to it beforehand, the calls are the same. *)
Lemma draw_calls_ignore_register (opcode y b : Z) (s : CPU.t) :
  Z.land opcode 0xF000 = 0xD000 ->
  y <> CPU.opX opcode ->
  calls <$> returned (CPU.executeInstruction opcode (CPU.vset y b s))
  = calls <$> returned (CPU.executeInstruction opcode s).
Proof.
  intros Hhigh Hne. rewrite !execute_Dxyn by assumption. simpl. f_equal.
  change (CPU.skip (CPU.vset y b s)) with (CPU.vset y b (CPU.skip s)).
  destruct (Z.eq_dec y 15) as [-> | Hflag].
  - rewrite vset_vset_eq. reflexivity.
  - rewrite (vset_vset_ne 15 y 0 b) by (intros E; apply Hflag; symmetry; exact E).
    rewrite drawRows_vset by assumption. reflexivity.
Qed.

(** C7.  [Dxyn] calls [setPixel] once each time its loops reach the
    call, that is for the column offset [col] (0 to 7) of each row [row]
    below [n] whose byte passes the test: the calls it makes are, in order,
    one per such [(col, row)], and the call for [(col, row)] is
    [setPixel(register[x] + col, register[x] + row)].  Both coordinates are
    counted from register [x]: its value before the instruction or, when
    [x] is the flag register, which the instruction resets and sets, its
    value at the time of the call.  Register [y] is not used: with any
    other value in it the calls are the same. *)
Theorem draw_counts_both_axes_from_register_x (opcode : Z) (s : CPU.t) :
  registersOk s ->
  Z.land opcode 0xF000 = 0xD000 ->
  let x := CPU.opX opcode in
  let y := CPU.opY opcode in
  let reached := drawIndices (CPU.memory s) (CPU.i s) 0
                   (Z.to_nat (Z.land opcode 0xF)) in
  exists s' plotted,
    CPU.executeInstruction opcode s = Ok s'
    /\ calls s' = calls s ++ plotted
    /\ Forall2 (fun c cr => plotsAt x (CPU.vget s x) cr.1 cr.2 c) plotted reached
    /\ (x <> 0xF ->
        plotted = map (fun cr => (CPU.vget s x + cr.1, CPU.vget s x + cr.2)) reached)
    /\ (forall b, y <> x ->
          calls <$> returned (CPU.executeInstruction opcode (CPU.vset y b s))
          = Some (calls s'))
    /\ (forall col row t,
          calls (CPU.plot x col row t)
          = calls t ++ [(CPU.vget t x + col, CPU.vget t x + row)]).
Proof.
  intros Hok Hhigh x y reached.
  assert (Hinv : drawInv x (CPU.vget s x) (CPU.vset 0xF 0 (CPU.skip s))).
  { split.
    - unfold registersOk in *. rewrite vset_length. exact Hok.
    - unfold drawOrigin. destruct (Z.eqb_spec x 15) as [E | Hne].
      + left. rewrite E.
        rewrite vget_vset_eq by (simpl; unfold registersOk in Hok; lia).
        reflexivity.
      + rewrite vget_vset_ne by assumption. reflexivity. }
  destruct (drawRows_plots x (CPU.vget s x) (Z.to_nat (Z.land opcode 0xF)) 0 _ Hinv)
    as (plotted & Hcalls & Hall).
  eexists. exists plotted.
  split; [apply execute_Dxyn; exact Hhigh |].
  split; [exact Hcalls |]. split; [exact Hall |]. split.
  - intros Hx. exact (plots_from_fixed_origin x (CPU.vget s x) plotted _ Hx Hall).
  - split; [| intros col row t; apply calls_plot].
    intros b Hne.
    rewrite (draw_calls_ignore_register opcode y b s Hhigh Hne).
    rewrite execute_Dxyn by assumption. reflexivity.
Qed.

(** With the font loaded and [I = 0], the rows 0 and 1 are [0xF0] and
    [0x90].  Register 1 holds 3 and register 2 holds 9: [0xD122] makes
    sixteen calls, and the vertical coordinates are 3 and 4, counted from
    register 1, not 9 and 10. *)
Lemma draw_counts_both_axes_from_register_x_witness :
  let s := CPU.vset 2 9
             (CPU.vset 1 3
                (CPU.loadSpritesIntoMemory
                   (CPU.new (Renderer.new 10) Keyboard.new Speaker.new (fun _ => 7)))) in
  exists s',
    CPU.executeInstruction 0xD122 s = Ok s'
    /\ calls s'
       = [(3, 3); (4, 3); (5, 3); (6, 3); (7, 3); (8, 3); (9, 3); (10, 3);
          (3, 4); (4, 4); (5, 4); (6, 4); (7, 4); (8, 4); (9, 4); (10, 4)].
Proof.
  intros s.
  destruct (draw_counts_both_axes_from_register_x 0xD122 s eq_refl eq_refl)
    as (s' & plotted & Hrun & Hcalls & _ & Hexact & _).
  exists s'. split; [exact Hrun |].
  rewrite Hcalls, Hexact by (vm_compute; discriminate). reflexivity.
Defined.

(** * Further properties *)

(** ** What every instruction preserves *)

(** A property of the CPU state that each elementary update keeps is kept
    by [executeInstruction], whatever the opcode. *)
Section Preserved.

Variable P : CPU.t -> Prop.
Hypothesis P_pc : forall p s, P s -> P (CPU.with_pc p s).
Hypothesis P_stack : forall st s, P s -> P (CPU.with_stack st s).
Hypothesis P_i : forall a s, P s -> P (CPU.with_i a s).
Hypothesis P_delayTimer : forall d s, P s -> P (CPU.with_delayTimer d s).
Hypothesis P_soundTimer : forall d s, P s -> P (CPU.with_soundTimer d s).
Hypothesis P_paused : forall b s, P s -> P (CPU.with_paused b s).
Hypothesis P_keyboard : forall k s, P s -> P (CPU.with_keyboard k s).
Hypothesis P_randomCalls : forall n s, P s -> P (CPU.with_randomCalls n s).
Hypothesis P_vset : forall idx val s, P s -> P (CPU.vset idx val s).
Hypothesis P_mset : forall idx val s, P s -> P (CPU.mset idx val s).
Hypothesis P_clear :
  forall s, P s -> P (CPU.with_renderer (Renderer.clear (CPU.renderer s)) s).
Hypothesis P_setPixel :
  forall x y s,
    P s -> P (CPU.with_renderer (Renderer.setPixel x y (CPU.renderer s)).1 s).

Lemma skip_preserves (s : CPU.t) : P s -> P (CPU.skip s).
Proof. intros H. unfold CPU.skip. auto. Qed.

Lemma plot_preserves (x col row : Z) (s : CPU.t) :
  P s -> P (CPU.plot x col row s).
Proof.
  intros H. unfold CPU.plot.
  pose proof (P_setPixel (CPU.vget s x + col) (CPU.vget s x + row) s H) as H1.
  destruct (Renderer.setPixel _ _ _) as [r erased]. simpl in H1.
  destruct erased; auto.
Qed.

Lemma drawCols_preserves (x row sprite : Z) (n : nat) (col : Z) (s : CPU.t) :
  P s -> P (CPU.drawCols x row sprite col n s).
Proof.
  revert col s. induction n as [| n IH]; intros col s H; [exact H |].
  cbn [CPU.drawCols]. apply IH.
  destruct (_ >? _); [apply plot_preserves |]; exact H.
Qed.

Lemma drawRows_preserves (x : Z) (n : nat) (row : Z) (s : CPU.t) :
  P s -> P (CPU.drawRows x row n s).
Proof.
  revert row s. induction n as [| n IH]; intros row s H; [exact H |].
  cbn [CPU.drawRows]. apply IH. apply drawCols_preserves. exact H.
Qed.

Lemma storeRegisters_preserves (n : nat) (k : Z) (s : CPU.t) :
  P s -> P (CPU.storeRegisters k n s).
Proof.
  revert k s. induction n as [| n IH]; intros k s H; [exact H |].
  cbn [CPU.storeRegisters]. apply IH. auto.
Qed.

Lemma loadRegisters_preserves (n : nat) (k : Z) (s : CPU.t) :
  P s -> P (CPU.loadRegisters k n s).
Proof.
  revert k s. induction n as [| n IH]; intros k s H; [exact H |].
  cbn [CPU.loadRegisters]. apply IH. auto.
Qed.

Ltac preserved :=
  try destruct (CPU.pop _);
  eexists; split; [reflexivity |];
  repeat match goal with |- context [if ?b then _ else _] => destruct b end;
  auto 12 using skip_preserves, drawRows_preserves, storeRegisters_preserves,
    loadRegisters_preserves.

Lemma executeInstruction_preserves (opcode : Z) (s : CPU.t) :
  P s -> exists s', CPU.executeInstruction opcode s = Ok s' /\ P s'.
Proof.
  intros H. apply skip_preserves in H.
  pose proof (highNibble_in_groups opcode) as Hin.
  unfold CPU.executeInstruction, CPU.opcodeSwitch.
  set (s0 := CPU.skip s) in *.
  set (sel := Z.land opcode 0xF000) in *.
  set (low4 := Z.land opcode 0xF).
  set (low8 := Z.land opcode 0xFF).
  set (x := CPU.opX opcode). set (y := CPU.opY opcode).
  clearbody sel low4 low8 x y s0.
  unfold dispatchGroups in Hin. simpl in Hin.
  repeat (destruct Hin as [<- | Hin]; [cbv beta iota zeta | ]);
    try contradiction; try solve [preserved].
  - split_literal opcode ltac:(preserved).
  - split_literal low4 ltac:(preserved).
  - split_literal low8 ltac:(preserved).
  - split_literal low8 ltac:(preserved).
Qed.

Lemma cycleLoop_preserves (n : nat) (s : CPU.t) :
  P s -> exists s', CPU.cycleLoop CPU.executeInstruction n s = Ok s' /\ P s'.
Proof.
  revert s. induction n as [| n IH]; intros s H; simpl.
  - exists s. split; [reflexivity | exact H].
  - destruct (CPU.paused s); simpl; [apply IH; exact H |].
    destruct (executeInstruction_preserves (CPU.fetch s) s H) as (s1 & -> & H1).
    simpl. apply IH. exact H1.
Qed.

Hypothesis P_speaker : forall sp s, P s -> P (CPU.with_speaker sp s).
Hypothesis P_render :
  forall s, P s -> P (CPU.with_renderer (Renderer.render (CPU.renderer s)) s).

Lemma cycle_preserves (s : CPU.t) :
  P s -> exists s', CPU.cycle s = Ok s' /\ P s'.
Proof.
  intros H. unfold CPU.cycle, CPU.cycleWith.
  destruct (cycleLoop_preserves (Z.to_nat (CPU.speed s)) s H) as (s1 & -> & H1).
  simpl. eexists. split; [reflexivity |].
  apply P_render. unfold CPU.playSound, CPU.updateTimers.
  repeat match goal with |- context [if ?b then _ else _] => destruct b end; auto 8.
Qed.

End Preserved.

(** ** The typed arrays stay well formed *)

Lemma u8set_bytes (arr : list Z) (idx val : Z) :
  bytes arr -> bytes (u8set arr idx val).
Proof.
  intros H. unfold u8set. destruct (idx <? 0); [exact H |].
  apply Forall_insert; [exact H |].
  apply Z.mod_pos_bound. lia.
Qed.

Lemma arraysOk_vset (size : nat) (idx val : Z) (s : CPU.t) :
  arraysOk size s -> arraysOk size (CPU.vset idx val s).
Proof.
  intros (Hr & Hv & Hl & Hm). unfold arraysOk, registersOk in *. simpl.
  rewrite u8set_length. repeat split; try assumption.
  apply u8set_bytes. exact Hv.
Qed.

Lemma arraysOk_mset (size : nat) (idx val : Z) (s : CPU.t) :
  arraysOk size s -> arraysOk size (CPU.mset idx val s).
Proof.
  intros (Hr & Hv & Hl & Hm). unfold arraysOk, registersOk in *. simpl.
  rewrite u8set_length. repeat split; try assumption.
  apply u8set_bytes. exact Hm.
Qed.

(** X1.  The register file keeps its sixteen byte-valued registers and the
    memory keeps its size and byte values: through any instruction, through
    a whole frame, and through a key-down event. *)
Theorem typed_arrays_stay_well_formed (size : nat) (s : CPU.t) :
  arraysOk size s ->
  (forall opcode,
     exists s', CPU.executeInstruction opcode s = Ok s' /\ arraysOk size s')
  /\ (exists s', CPU.cycle s = Ok s' /\ arraysOk size s')
  /\ (forall which, arraysOk size (onKeyDown which s)).
Proof.
  intros H. split; [| split].
  - intros opcode.
    apply (executeInstruction_preserves (arraysOk size));
      try exact H; intros;
      first [apply arraysOk_vset | apply arraysOk_mset | idtac]; assumption.
  - apply (cycle_preserves (arraysOk size));
      try exact H; intros;
      first [apply arraysOk_vset | apply arraysOk_mset | idtac]; assumption.
  - intros which. unfold onKeyDown.
    destruct (Keyboard.onNextKeyPress _) as [[x] |]; [| exact H].
    destruct (Keyboard.KEYMAP !! which) as [k |]; [| exact H].
    destruct (Keyboard.truthy (Some k)); [| exact H].
    apply (arraysOk_vset size x k). exact H.
Qed.

Lemma typed_arrays_stay_well_formed_witness :
  let s := CPU.new (Renderer.new 10) Keyboard.new Speaker.new (fun _ => 7) in
  exists s', CPU.cycle s = Ok s' /\ arraysOk 16 s'.
Proof.
  intros s.
  refine (proj1 (proj2 (typed_arrays_stay_well_formed 16 s _))).
  unfold arraysOk, registersOk, bytes. simpl.
  repeat split; try reflexivity; repeat constructor; lia.
Defined.

(** ** The framebuffer holds bits *)

Lemma bitsOnly_clear (r : Renderer.t) : bitsOnly (Renderer.clear r).
Proof. unfold bitsOnly. simpl. apply map_Forall_empty. Qed.

Lemma bitsOnly_setPixel (x y : Z) (r : Renderer.t) :
  bitsOnly r -> bitsOnly (Renderer.setPixel x y r).1.
Proof.
  unfold bitsOnly. intros H. simpl.
  apply map_Forall_insert_2; [| exact H].
  destruct (Renderer.display r !! Renderer.pixelLoc r x y) as [z |] eqn:E; simpl.
  - destruct (H _ _ E) as [-> | ->]; [right | left]; reflexivity.
  - right. reflexivity.
Qed.

(** X2.  Once every stored pixel is 0 or 1 (as in the empty framebuffer of
    a new renderer), it stays so through any instruction and through a
    whole frame. *)
Theorem framebuffer_holds_bits (s : CPU.t) :
  bitsOnly (CPU.renderer s) ->
  (forall opcode,
     exists s', CPU.executeInstruction opcode s = Ok s'
                /\ bitsOnly (CPU.renderer s'))
  /\ (exists s', CPU.cycle s = Ok s' /\ bitsOnly (CPU.renderer s')).
Proof.
  intros H. split.
  - intros opcode.
    apply (executeInstruction_preserves (fun s => bitsOnly (CPU.renderer s)));
      try exact H; intros;
      first [apply bitsOnly_clear | apply bitsOnly_setPixel | idtac]; assumption.
  - apply (cycle_preserves (fun s => bitsOnly (CPU.renderer s)));
      try exact H; intros;
      first [apply bitsOnly_clear | apply bitsOnly_setPixel | idtac]; assumption.
Qed.

Lemma framebuffer_holds_bits_witness :
  let s := CPU.loadSpritesIntoMemory
             (CPU.new (Renderer.new 10) Keyboard.new Speaker.new (fun _ => 7)) in
  exists s', CPU.executeInstruction 0xD005 s = Ok s' /\ bitsOnly (CPU.renderer s').
Proof.
  intros s.
  refine (proj1 (framebuffer_holds_bits s _) 0xD005).
  apply map_Forall_empty.
Defined.

(** ** setPixel *)

Lemma lxor_1_twice (z : Z) : Z.lxor (Z.lxor z 1) 1 = z.
Proof. rewrite Z.lxor_assoc. change (Z.lxor 1 1) with 0. apply Z.lxor_0_r. Qed.

Lemma lxor_1_is_0 (z : Z) : (Z.lxor z 1 =? 0) = (z =? 1).
Proof.
  destruct (Z.eqb_spec z 1) as [-> | Hne]; [reflexivity |].
  apply Z.eqb_neq. intros E. apply Z.lxor_eq in E. contradiction.
Qed.

(** The cell [setPixel] toggles, and the cells it leaves alone. *)
Lemma pixel_setPixel (x y k : Z) (r : Renderer.t) :
  pixel (Renderer.setPixel x y r).1 k
  = if decide (k = Renderer.pixelLoc r x y) then Z.lxor (pixel r k) 1
    else pixel r k.
Proof.
  unfold pixel. cbn [Renderer.setPixel fst Renderer.display].
  destruct (decide (k = Renderer.pixelLoc r x y)) as [-> | Hne].
  - rewrite lookup_insert_eq. reflexivity.
  - rewrite lookup_insert_ne by (intros E; apply Hne; symmetry; exact E).
    reflexivity.
Qed.

Lemma setPixel_erased (x y : Z) (r : Renderer.t) :
  (Renderer.setPixel x y r).2 = (pixel r (Renderer.pixelLoc r x y) =? 1).
Proof. unfold pixel. cbn [Renderer.setPixel snd]. apply lxor_1_is_0. Qed.

Lemma pixel_bit (r : Renderer.t) (k : Z) :
  bitsOnly r -> pixel r k = 0 \/ pixel r k = 1.
Proof.
  intros H. unfold pixel.
  destruct (Renderer.display r !! k) as [z |] eqn:E; [exact (H _ _ E) | left; reflexivity].
Qed.

(** X3.  [setPixel] is its own inverse: a second call with the same
    coordinates gives every pixel the value it had before the first; and on
    a pixel that held 0 or 1, exactly one of the two calls reports an
    erasure. *)
Theorem setPixel_twice_restores (x y : Z) (r : Renderer.t) :
  let first := Renderer.setPixel x y r in
  let second := Renderer.setPixel x y first.1 in
  (forall k, pixel second.1 k = pixel r k)
  /\ (bitsOnly r -> second.2 = negb first.2).
Proof.
  intros first second. split.
  - intros k. subst second first. rewrite !pixel_setPixel.
    change (Renderer.pixelLoc (Renderer.setPixel x y r).1 x y)
      with (Renderer.pixelLoc r x y).
    destruct (decide (k = Renderer.pixelLoc r x y)); [apply lxor_1_twice | reflexivity].
  - intros Hbits. subst second first. rewrite !setPixel_erased.
    change (Renderer.pixelLoc (Renderer.setPixel x y r).1 x y)
      with (Renderer.pixelLoc r x y).
    rewrite pixel_setPixel.
    destruct (decide (Renderer.pixelLoc r x y = Renderer.pixelLoc r x y));
      [| contradiction].
    destruct (pixel_bit r (Renderer.pixelLoc r x y) Hbits) as [-> | ->]; reflexivity.
Qed.

(** X4.  On the 64 by 32 framebuffer, [setPixel] at a coordinate of the
    screen toggles the cell [x + 64 * y], which is one of the 2048 cells
    [render] shows, leaves every other cell as it was, and returns whether
    the cell held 1. *)
Theorem setPixel_on_screen (x y : Z) (r : Renderer.t) :
  Renderer.cols r = 64 -> Renderer.rows r = 32 ->
  0 <= x < 64 -> 0 <= y < 32 ->
  let r' := (Renderer.setPixel x y r).1 in
  0 <= x + 64 * y < 2048
  /\ pixel r' (x + 64 * y) = Z.lxor (pixel r (x + 64 * y)) 1
  /\ (forall k, k <> x + 64 * y ->
        Renderer.display r' !! k = Renderer.display r !! k)
  /\ (Renderer.setPixel x y r).2 = (pixel r (x + 64 * y) =? 1).
Proof.
  intros Hc Hr Hx Hy r'.
  assert (Hloc : Renderer.pixelLoc r x y = x + 64 * y).
  { unfold Renderer.pixelLoc, Renderer.wrap. rewrite Hc, Hr.
    destruct (Z.gtb_spec x 64); [lia |]. destruct (Z.ltb_spec x 0); [lia |].
    destruct (Z.gtb_spec y 32); [lia |]. destruct (Z.ltb_spec y 0); [lia |].
    lia. }
  split; [lia |]. split; [| split].
  - subst r'. rewrite pixel_setPixel, Hloc.
    destruct (decide (x + 64 * y = x + 64 * y)); [reflexivity | contradiction].
  - intros k Hk. subst r'. simpl. rewrite Hloc.
    apply lookup_insert_ne. intros E. apply Hk. symmetry. exact E.
  - rewrite setPixel_erased, Hloc. reflexivity.
Qed.

Lemma setPixel_on_screen_witness :
  let r := Renderer.new 10 in
  pixel (Renderer.setPixel 63 31 r).1 2047 = 1
  /\ (Renderer.setPixel 63 31 r).2 = false.
Proof.
  intros r.
  destruct (setPixel_on_screen 63 31 r eq_refl eq_refl) as (_ & Hp & _ & He);
    [lia | lia |].
  split; [exact Hp | exact He].
Defined.

(** ** render *)

Lemma rect_Some (r : Renderer.t) (i : Z) (c : Z * Z) :
  Renderer.rect r i = Some c
  <-> pixel r i <> 0
      /\ c = ((i mod Renderer.cols r) * Renderer.scale r,
              (i / Renderer.cols r) * Renderer.scale r).
Proof.
  unfold Renderer.rect, pixel.
  destruct (Z.eqb_spec (toInt (Renderer.display r !! i)) 0) as [E | E].
  - split; [discriminate | intros [H _]; contradiction].
  - split.
    + intros [= <-]. split; [exact E | reflexivity].
    + intros [_ ->]. reflexivity.
Qed.

(** X5.  On the 64 by 32 framebuffer, [render] fills the rectangle at
    [(x * scale, y * scale)] exactly for the pixels [(x, y)] of the screen
    whose cell [x + 64 * y] holds a non-zero value: the coordinates
    [setPixel] folds into a cell are the ones [render] unfolds, and a cell
    outside the 2048 is never shown. *)
Theorem render_shows_set_pixels (r : Renderer.t) (px py : Z) :
  Renderer.cols r = 64 -> Renderer.rows r = 32 ->
  (px, py) ∈ Renderer.canvas (Renderer.render r)
  <-> exists x y,
        0 <= x < 64 /\ 0 <= y < 32 /\ pixel r (x + 64 * y) <> 0
        /\ px = x * Renderer.scale r /\ py = y * Renderer.scale r.
Proof.
  intros Hc Hr. cbn [Renderer.render Renderer.canvas].
  rewrite list_elem_of_omap, Hc, Hr. split.
  - intros (n & Hn & Hrect). apply elem_of_seq in Hn.
    apply rect_Some in Hrect as [Hset Hc']. rewrite Hc in Hc'.
    injection Hc' as -> ->.
    exists (Z.of_nat n mod 64), (Z.of_nat n / 64).
    pose proof (Z.mod_pos_bound (Z.of_nat n) 64 ltac:(lia)).
    pose proof (Z.div_mod (Z.of_nat n) 64 ltac:(lia)) as Hdm.
    assert (0 <= Z.of_nat n / 64 < 32).
    { split; [apply Z.div_pos; lia | apply Z.div_lt_upper_bound; lia]. }
    repeat split; try lia.
    replace (Z.of_nat n mod 64 + 64 * (Z.of_nat n / 64)) with (Z.of_nat n) by lia.
    exact Hset.
  - intros (x & y & Hx & Hy & Hset & -> & ->).
    exists (Z.to_nat (x + 64 * y)). split.
    + apply elem_of_seq. lia.
    + rewrite Z2Nat.id by lia. apply rect_Some. split; [exact Hset |].
      assert (Hmod : (x + 64 * y) mod 64 = x).
      { replace (x + 64 * y) with (x + y * 64) by lia.
        rewrite Z.mod_add by lia. apply Z.mod_small. lia. }
      assert (Hdiv : (x + 64 * y) / 64 = y).
      { replace (x + 64 * y) with (x + y * 64) by lia.
        rewrite Z.div_add by lia. rewrite Z.div_small by lia. lia. }
      rewrite Hc, Hmod, Hdiv. reflexivity.
Qed.

Lemma render_shows_set_pixels_witness :
  let r := (Renderer.setPixel 3 2 (Renderer.new 10)).1 in
  (30, 20) ∈ Renderer.canvas (Renderer.render r).
Proof.
  intros r.
  apply (proj2 (render_shows_set_pixels r 30 20 eq_refl eq_refl)).
  exists 3, 2. repeat split; try lia. vm_compute. discriminate.
Defined.

Lemma omap_all_None {A B : Type} (f : A -> option B) (l : list A) :
  (forall a, f a = None) -> omap f l = [].
Proof.
  intros H. induction l as [| a l IH]; [reflexivity |].
  cbn [omap list_omap]. rewrite H. exact IH.
Qed.

(** X6.  [00E0] empties the framebuffer: afterwards every pixel reads 0,
    [render] fills no rectangle, and only the program counter has otherwise
    changed. *)
Theorem cls_clears_the_screen (s : CPU.t) :
  exists s',
    CPU.executeInstruction 0x00E0 s = Ok s'
    /\ (forall k, pixel (CPU.renderer s') k = 0)
    /\ Renderer.canvas (Renderer.render (CPU.renderer s')) = []
    /\ s' = CPU.with_renderer (Renderer.clear (CPU.renderer s)) (CPU.skip s).
Proof.
  eexists. split; [reflexivity |]. split; [| split; [| reflexivity]].
  - intros k. reflexivity.
  - cbn [Renderer.render Renderer.canvas]. apply omap_all_None.
    intros n. reflexivity.
Qed.

(** ** Timers *)

Lemma updateTimers_eq (s : CPU.t) :
  CPU.updateTimers s
  = CPU.with_soundTimer
      (CPU.soundTimer s - (if CPU.soundTimer s >? 0 then 1 else 0))
      (CPU.with_delayTimer
         (CPU.delayTimer s - (if CPU.delayTimer s >? 0 then 1 else 0)) s).
Proof.
  unfold CPU.updateTimers.
  destruct (CPU.delayTimer s >? 0); cbn [CPU.soundTimer CPU.with_delayTimer];
    destruct (CPU.soundTimer s >? 0); destruct s; simpl;
    rewrite ?Z.sub_0_r; reflexivity.
Qed.

(** X7.  [updateTimers] counts each timer down by one and stops at zero:
    after [n] updates a timer that held [d >= 0] holds [max 0 (d - n)], and
    nothing but the two timers has changed. *)
Theorem timers_count_down_to_zero (n : nat) (s : CPU.t) :
  0 <= CPU.delayTimer s -> 0 <= CPU.soundTimer s ->
  Nat.iter n CPU.updateTimers s
  = CPU.with_soundTimer (Z.max 0 (CPU.soundTimer s - Z.of_nat n))
      (CPU.with_delayTimer (Z.max 0 (CPU.delayTimer s - Z.of_nat n)) s).
Proof.
  intros Hd Hs. induction n as [| n IH].
  - simpl. rewrite !Z.sub_0_r, !Z.max_r by lia. destruct s; reflexivity.
  - rewrite Nat.iter_succ, IH, updateTimers_eq.
    cbn [CPU.soundTimer CPU.delayTimer CPU.with_soundTimer CPU.with_delayTimer].
    replace (Z.max 0 (CPU.soundTimer s - Z.of_nat n)
             - (if Z.max 0 (CPU.soundTimer s - Z.of_nat n) >? 0 then 1 else 0))
      with (Z.max 0 (CPU.soundTimer s - Z.of_nat (S n)))
      by (destruct (Z.gtb_spec (Z.max 0 (CPU.soundTimer s - Z.of_nat n)) 0); lia).
    replace (Z.max 0 (CPU.delayTimer s - Z.of_nat n)
             - (if Z.max 0 (CPU.delayTimer s - Z.of_nat n) >? 0 then 1 else 0))
      with (Z.max 0 (CPU.delayTimer s - Z.of_nat (S n)))
      by (destruct (Z.gtb_spec (Z.max 0 (CPU.delayTimer s - Z.of_nat n)) 0); lia).
    reflexivity.
Qed.

(** The scenario of the specification: a delay timer of 3 reaches 0 after
    three updates and stays there. *)
Lemma timers_count_down_to_zero_witness :
  let s := CPU.with_delayTimer 3
             (CPU.new (Renderer.new 10) Keyboard.new Speaker.new (fun _ => 7)) in
  CPU.delayTimer (Nat.iter 3 CPU.updateTimers s) = 0
  /\ CPU.delayTimer (Nat.iter 4 CPU.updateTimers s) = 0.
Proof.
  intros s.
  rewrite (timers_count_down_to_zero 3 s), (timers_count_down_to_zero 4 s);
    simpl; lia.
Defined.

(** ** Subroutines *)

Lemma pop_push (st : list jsnum) (p : jsnum) : CPU.pop (st ++ [p]) = (p, st).
Proof. unfold CPU.pop. rewrite last_snoc, removelast_last. reflexivity. Qed.

(** X8.  A call followed at once by a return resumes after the call: [2nnn]
    jumps to [nnn], and [00EE] executed next restores the state the call
    found, with the program counter 2 past the call (and so the stack as it
    was). *)
Theorem call_then_return_resumes (opcode : Z) (s : CPU.t) :
  Z.land opcode 0xF000 = 0x2000 ->
  exists s1 s2,
    CPU.executeInstruction opcode s = Ok s1
    /\ CPU.pc s1 = Num (Z.land opcode 0xFFF)
    /\ CPU.stack s1 = CPU.stack s ++ [jsAdd (CPU.pc s) 2]
    /\ CPU.executeInstruction 0x00EE s1 = Ok s2
    /\ CPU.pc s2 = jsAdd (CPU.pc s) 2
    /\ CPU.stack s2 = CPU.stack s
    /\ s2 = CPU.skip s.
Proof.
  intros Hhigh.
  assert (Hcall : CPU.executeInstruction opcode s
                  = Ok (CPU.with_pc (Num (Z.land opcode 0xFFF))
                          (CPU.with_stack (CPU.stack s ++ [jsAdd (CPU.pc s) 2])
                             (CPU.skip s)))).
  { unfold CPU.executeInstruction, CPU.opcodeSwitch. rewrite Hhigh. reflexivity. }
  eexists. eexists. split; [exact Hcall |].
  split; [reflexivity |]. split; [reflexivity |].
  assert (Hret : CPU.executeInstruction 0x00EE
                   (CPU.with_pc (Num (Z.land opcode 0xFFF))
                      (CPU.with_stack (CPU.stack s ++ [jsAdd (CPU.pc s) 2])
                         (CPU.skip s)))
                 = Ok (CPU.skip s)).
  { unfold CPU.executeInstruction, CPU.opcodeSwitch.
    change (Z.land 0x00EE 0xF000) with 0. cbv beta iota zeta.
    cbn [CPU.stack CPU.skip CPU.with_pc CPU.with_stack].
    rewrite pop_push. reflexivity. }
  split; [exact Hret |]. repeat split.
Qed.

Lemma call_then_return_resumes_witness :
  let s := CPU.new (Renderer.new 10) Keyboard.new Speaker.new (fun _ => 7) in
  exists s1 s2,
    CPU.executeInstruction 0x2ABC s = Ok s1 /\ CPU.pc s1 = Num 0xABC
    /\ CPU.executeInstruction 0x00EE s1 = Ok s2 /\ CPU.pc s2 = Num 0x202.
Proof.
  intros s.
  destruct (call_then_return_resumes 0x2ABC s eq_refl)
    as (s1 & s2 & H1 & Hpc1 & _ & H2 & Hpc2 & _).
  exists s1, s2. repeat split; assumption.
Defined.

(** ** A program counter that is not a number *)

Lemma fetch_not_a_number (s : CPU.t) :
  CPU.pc s = Undefined \/ CPU.pc s = NaN -> CPU.fetch s = 0.
Proof. intros [E | E]; unfold CPU.fetch; rewrite E; reflexivity. Qed.

Lemma cycleLoop_not_a_number (n : nat) (s : CPU.t) :
  CPU.paused s = false ->
  CPU.pc s = Undefined \/ CPU.pc s = NaN ->
  CPU.cycleLoop CPU.executeInstruction (S n) s = Ok (CPU.with_pc NaN s).
Proof.
  revert s. induction n as [| n IH]; intros s Hp Hpc.
  - cbn [CPU.cycleLoop]. rewrite Hp, (fetch_not_a_number s Hpc).
    destruct Hpc as [E | E]; unfold CPU.executeInstruction, CPU.opcodeSwitch, CPU.skip;
      rewrite E; reflexivity.
  - change (CPU.cycleLoop CPU.executeInstruction (S (S n)) s)
      with (s' ← (if CPU.paused s then Ok s
                  else CPU.executeInstruction (CPU.fetch s) s);
            CPU.cycleLoop CPU.executeInstruction (S n) s').
    rewrite Hp, (fetch_not_a_number s Hpc).
    assert (Hstep : CPU.executeInstruction 0 s = Ok (CPU.with_pc NaN s)).
    { destruct Hpc as [E | E]; unfold CPU.executeInstruction, CPU.opcodeSwitch, CPU.skip;
        rewrite E; reflexivity. }
    rewrite Hstep. cbn [mbind result_bind].
    rewrite IH; [reflexivity | exact Hp | right; reflexivity].
Qed.

(** X9.  [00EE] with an empty call stack raises no failure: it stores
    [undefined] in the program counter.  From then on every fetch reads the
    opcode 0, a no-operation, and the program counter is [NaN]: no later
    instruction of any frame changes a register, the memory, the stack or
    the framebuffer. *)
Theorem return_on_empty_stack_stalls (n : nat) (s : CPU.t) :
  CPU.stack s = [] -> CPU.paused s = false ->
  exists s1,
    CPU.executeInstruction 0x00EE s = Ok s1
    /\ s1 = CPU.with_pc Undefined s
    /\ CPU.cycleLoop CPU.executeInstruction (S n) s1 = Ok (CPU.with_pc NaN s).
Proof.
  intros Hst Hp. exists (CPU.with_pc Undefined s). split; [| split].
  - unfold CPU.executeInstruction, CPU.opcodeSwitch.
    change (Z.land 0x00EE 0xF000) with 0. cbv beta iota zeta.
    cbn [CPU.stack CPU.skip CPU.with_pc]. rewrite Hst.
    destruct s; cbn [CPU.stack] in Hst; subst; reflexivity.
  - reflexivity.
  - rewrite cycleLoop_not_a_number; [reflexivity | exact Hp | left; reflexivity].
Qed.

Lemma return_on_empty_stack_stalls_witness :
  let s := CPU.vset 3 9
             (CPU.new (Renderer.new 10) Keyboard.new Speaker.new (fun _ => 7)) in
  exists s1,
    CPU.executeInstruction 0x00EE s = Ok s1
    /\ CPU.cycleLoop CPU.executeInstruction 10 s1 = Ok (CPU.with_pc NaN s).
Proof.
  intros s.
  destruct (return_on_empty_stack_stalls 9 s eq_refl eq_refl) as (s1 & H1 & _ & H2).
  exists s1. split; [exact H1 | exact H2].
Defined.

(** ** The key wait *)

Lemma execute_Fx0A (opcode : Z) (s : CPU.t) :
  Z.land opcode 0xF000 = 0xF000 -> Z.land opcode 0xFF = 0x0A ->
  CPU.executeInstruction opcode s
  = Ok (CPU.with_keyboard
          (Keyboard.setOnNextKeyPress (Some (onNextKeyPressed (CPU.opX opcode)))
             (CPU.keyboard s))
          (CPU.with_paused true (CPU.skip s))).
Proof.
  intros Hhigh Hlow. unfold CPU.executeInstruction, CPU.opcodeSwitch. rewrite Hhigh, Hlow.
  reflexivity.
Qed.

(** X10.  [Fx0A] ends the frame it is executed in: when it is the first
    instruction of a frame, [cycle] executes no other instruction (the
    program counter is 2 further), leaves the machine paused with the
    callback for register [x] registered, and does not count the timers
    down. *)
Theorem key_wait_ends_the_frame (s : CPU.t) :
  CPU.paused s = false -> 0 < CPU.speed s ->
  Z.land (CPU.fetch s) 0xF000 = 0xF000 -> Z.land (CPU.fetch s) 0xFF = 0x0A ->
  exists s',
    CPU.cycle s = Ok s'
    /\ CPU.pc s' = jsAdd (CPU.pc s) 2
    /\ CPU.paused s' = true
    /\ Keyboard.onNextKeyPress (CPU.keyboard s')
       = Some (onNextKeyPressed (CPU.opX (CPU.fetch s)))
    /\ CPU.v s' = CPU.v s /\ CPU.memory s' = CPU.memory s
    /\ CPU.delayTimer s' = CPU.delayTimer s
    /\ CPU.soundTimer s' = CPU.soundTimer s.
Proof.
  intros Hp Hspeed Hhigh Hlow.
  unfold CPU.cycle, CPU.cycleWith.
  destruct (Z.to_nat (CPU.speed s)) as [| n] eqn:En; [lia |].
  cbn [CPU.cycleLoop]. rewrite Hp, (execute_Fx0A _ s Hhigh Hlow).
  cbn [mbind result_bind].
  rewrite cycleLoop_paused by reflexivity.
  cbn [mbind result_bind CPU.paused CPU.with_keyboard CPU.with_paused].
  eexists. split; [reflexivity |].
  unfold CPU.playSound. cbn [CPU.soundTimer CPU.with_keyboard CPU.with_paused CPU.skip CPU.with_pc].
  destruct (CPU.soundTimer s >? 0); repeat split.
Qed.

(** X11.  The key wait round trip: after [Fx0A], a key-down of a physical
    key mapped to a non-zero key value [k] stores [k] in register [x],
    clears the paused flag and clears the callback, so the next frame
    executes instructions again. *)
Theorem key_wait_then_key_resumes (opcode which k : Z) (s : CPU.t) :
  registersOk s ->
  Z.land opcode 0xF000 = 0xF000 -> Z.land opcode 0xFF = 0x0A ->
  Keyboard.KEYMAP !! which = Some k -> k <> 0 ->
  exists s1,
    CPU.executeInstruction opcode s = Ok s1
    /\ CPU.paused s1 = true
    /\ CPU.vget (onKeyDown which s1) (CPU.opX opcode) = k
    /\ CPU.paused (onKeyDown which s1) = false
    /\ Keyboard.onNextKeyPress (CPU.keyboard (onKeyDown which s1)) = None
    /\ Keyboard.isKeyPressed k (CPU.keyboard (onKeyDown which s1)) = true.
Proof.
  intros Hok Hhigh Hlow Hmap Hk.
  eexists. split; [apply execute_Fx0A; assumption |].
  split; [reflexivity |].
  match goal with |- CPU.vget (onKeyDown which ?s1) _ = _ /\ _ =>
    destruct (nonzero_key_resolves_wait which k (CPU.opX opcode) s1 Hmap Hk
                eq_refl Hok (opX_range opcode)) as (Hv & Hpause & Hcb)
  end.
  split; [exact Hv |]. split; [exact Hpause |]. split; [exact Hcb |].
  unfold onKeyDown, Keyboard.isKeyPressed. rewrite Hmap.
  cbn [CPU.keyboard CPU.with_keyboard Keyboard.onNextKeyPress
       Keyboard.setOnNextKeyPress Keyboard.setPressed].
  destruct (Keyboard.truthy (Some k));
    cbn [CPU.keyboard CPU.with_keyboard call CPU.with_paused CPU.vset CPU.with_v
         Keyboard.keysPressed Keyboard.setOnNextKeyPress Keyboard.setPressed];
    rewrite lookup_insert_eq; reflexivity.
Qed.

Lemma key_wait_then_key_resumes_witness :
  let s := CPU.new (Renderer.new 10) Keyboard.new Speaker.new (fun _ => 7) in
  exists s1,
    CPU.executeInstruction 0xF30A s = Ok s1
    /\ CPU.vget (onKeyDown 87 s1) 3 = 5
    /\ CPU.paused (onKeyDown 87 s1) = false.
Proof.
  intros s.
  destruct (key_wait_then_key_resumes 0xF30A 87 5 s eq_refl eq_refl eq_refl eq_refl)
    as (s1 & H1 & _ & Hv & Hp & _); [discriminate |].
  exists s1. split; [exact H1 |]. split; [exact Hv | exact Hp].
Defined.

Lemma key_wait_ends_the_frame_witness :
  let s := CPU.with_delayTimer 5
             (CPU.with_pc (Num 0)
                (CPU.mset 1 0x0A
                   (CPU.mset 0 0xF3
                      (CPU.new (Renderer.new 10) Keyboard.new Speaker.new
                         (fun _ => 7))))) in
  exists s',
    CPU.cycle s = Ok s' /\ CPU.pc s' = Num 2 /\ CPU.paused s' = true
    /\ CPU.delayTimer s' = 5.
Proof.
  intros s.
  destruct (key_wait_ends_the_frame s eq_refl eq_refl eq_refl eq_refl)
    as (s' & Hrun & Hpc & Hp & _ & _ & _ & Hd & _).
  exists s'. split; [exact Hrun |]. split; [exact Hpc |]. split; [exact Hp | exact Hd].
Defined.

(** ** Arithmetic with a flag *)

Lemma vget_flag_written (x flag : Z) (s : CPU.t) :
  x <> 0xF -> CPU.vget (CPU.vset 0xF flag s) x = CPU.vget s x.
Proof. intros Hx. apply vget_vset_ne. exact Hx. Qed.

Lemma vget_after_flag (x val : Z) (s : CPU.t) :
  x <> 0xF -> CPU.vget (CPU.vset x val s) 0xF = CPU.vget s 0xF.
Proof. intros Hx. apply vget_vset_ne. apply not_eq_sym. exact Hx. Qed.

Lemma vget_flag (flag : Z) (s : CPU.t) :
  registersOk s -> CPU.vget (CPU.vset 0xF flag s) 0xF = flag mod 256.
Proof. intros Hok. apply vget_vset_eq. unfold registersOk in Hok. lia. Qed.

Lemma registersOk_vset (idx val : Z) (s : CPU.t) :
  registersOk s -> registersOk (CPU.vset idx val s).
Proof. unfold registersOk. rewrite vset_length. auto. Qed.

(** X12.  [8xy5] with [x] and [y] other than [0xF]: register [x] ends as
    [(a - b) mod 256] and register [0xF] as 1 if [a > b] and 0 otherwise
    (so also 0 when [a = b]). *)
Theorem sub_sets_difference_and_flag (opcode : Z) (s : CPU.t) :
  registersOk s ->
  Z.land opcode 0xF000 = 0x8000 -> Z.land opcode 0xF = 0x5 ->
  CPU.opX opcode <> 0xF -> CPU.opY opcode <> 0xF ->
  let a := CPU.vget s (CPU.opX opcode) in
  let b := CPU.vget s (CPU.opY opcode) in
  exists s',
    CPU.executeInstruction opcode s = Ok s'
    /\ CPU.vget s' (CPU.opX opcode) = (a - b) mod 256
    /\ CPU.vget s' 0xF = (if a >? b then 1 else 0).
Proof.
  intros Hok Hhigh Hlow Hx Hy a b.
  pose proof (opX_range opcode) as Hxr.
  eexists. split.
  { unfold CPU.executeInstruction, CPU.opcodeSwitch. rewrite Hhigh, Hlow.
    cbv beta iota zeta. reflexivity. }
  set (x := CPU.opX opcode) in *. set (y := CPU.opY opcode) in *.
  assert (Hok0 : registersOk (CPU.skip s)) by exact Hok.
  rewrite !(vget_flag_written x 0 (CPU.skip s) Hx).
  rewrite !(vget_flag_written y 0 (CPU.skip s) Hy).
  change (CPU.vget (CPU.skip s) x) with a.
  change (CPU.vget (CPU.skip s) y) with b.
  destruct (a >? b).
  - rewrite (vget_after_flag x _ _ Hx), !vget_flag by (apply registersOk_vset; exact Hok0).
    rewrite vget_vset_eq
      by (rewrite !vset_length; unfold registersOk in Hok0; lia).
    rewrite (vget_flag_written x 1 _ Hx), (vget_flag_written y 1 _ Hy).
    rewrite (vget_flag_written x 0 _ Hx), (vget_flag_written y 0 _ Hy).
    split; reflexivity.
  - rewrite (vget_after_flag x _ _ Hx), !vget_flag by exact Hok0.
    rewrite vget_vset_eq
      by (rewrite !vset_length; unfold registersOk in Hok0; lia).
    rewrite (vget_flag_written x 0 _ Hx), (vget_flag_written y 0 _ Hy).
    split; reflexivity.
Qed.

Lemma sub_sets_difference_and_flag_witness :
  let s := CPU.vset 2 0x05
             (CPU.vset 1 0x03
                (CPU.new (Renderer.new 10) Keyboard.new Speaker.new (fun _ => 7))) in
  exists s',
    CPU.executeInstruction 0x8125 s = Ok s'
    /\ CPU.vget s' 1 = 0xFE /\ CPU.vget s' 0xF = 0.
Proof.
  intros s.
  destruct (sub_sets_difference_and_flag 0x8125 s eq_refl eq_refl eq_refl)
    as (s' & Hrun & Hd & Hf); [vm_compute; discriminate | vm_compute; discriminate |].
  exists s'. split; [exact Hrun |]. split; [exact Hd | exact Hf].
Defined.

Lemma land_0x80 (a : Z) : Z.land a 0x80 = 0 \/ Z.land a 0x80 = 0x80.
Proof.
  assert (E : Z.land a 0x80 = Z.shiftl (Z.land (Z.shiftr a 7) 1) 7)
    by (apply (land_shiftl_mask a 1 7); lia).
  assert (Hk : Z.land (Z.shiftr a 7) 1 = Z.shiftr a 7 mod 2)
    by (apply (Z.land_ones (Z.shiftr a 7) 1); lia).
  rewrite E, Hk.
  pose proof (Z.mod_pos_bound (Z.shiftr a 7) 2 ltac:(lia)) as Hr.
  assert (C : Z.shiftr a 7 mod 2 = 0 \/ Z.shiftr a 7 mod 2 = 1) by lia.
  destruct C as [-> | ->]; [left | right]; reflexivity.
Qed.

(** X13.  [8xyE] with [x] other than [0xF]: register [x] ends as
    [(2 * a) mod 256], and register [0xF] holds the masked bit itself,
    [a & 0x80], which is 0 or 128 and never 1. *)
Theorem shl_flag_is_the_masked_bit (opcode : Z) (s : CPU.t) :
  registersOk s ->
  Z.land opcode 0xF000 = 0x8000 -> Z.land opcode 0xF = 0xE ->
  CPU.opX opcode <> 0xF ->
  let a := CPU.vget s (CPU.opX opcode) in
  exists s',
    CPU.executeInstruction opcode s = Ok s'
    /\ CPU.vget s' (CPU.opX opcode) = (2 * a) mod 256
    /\ CPU.vget s' 0xF = Z.land a 0x80
    /\ (CPU.vget s' 0xF = 0 \/ CPU.vget s' 0xF = 128).
Proof.
  intros Hok Hhigh Hlow Hx a.
  pose proof (opX_range opcode) as Hxr.
  assert (Hflag : Z.land a 0x80 mod 256 = Z.land a 0x80).
  { destruct (land_0x80 a) as [-> | ->]; reflexivity. }
  eexists. split.
  { unfold CPU.executeInstruction, CPU.opcodeSwitch. rewrite Hhigh, Hlow.
    cbv beta iota zeta. reflexivity. }
  set (x := CPU.opX opcode) in *.
  assert (Hok0 : registersOk (CPU.skip s)) by exact Hok.
  rewrite (vget_after_flag x _ _ Hx), !vget_flag by exact Hok0.
  rewrite vget_vset_eq
    by (rewrite !vset_length; unfold registersOk in Hok0; lia).
  rewrite (vget_flag_written x _ _ Hx).
  change (CPU.vget (CPU.skip s) x) with a.
  rewrite Hflag, Z.shiftl_mul_pow2 by lia.
  split; [f_equal; lia |]. split; [reflexivity | apply land_0x80].
Qed.

Lemma shl_flag_is_the_masked_bit_witness :
  let s := CPU.vset 1 0x81
             (CPU.new (Renderer.new 10) Keyboard.new Speaker.new (fun _ => 7)) in
  exists s',
    CPU.executeInstruction 0x810E s = Ok s'
    /\ CPU.vget s' 1 = 0x02 /\ CPU.vget s' 0xF = 0x80.
Proof.
  intros s.
  destruct (shl_flag_is_the_masked_bit 0x810E s eq_refl eq_refl eq_refl)
    as (s' & Hrun & Hd & Hf & _); [vm_compute; discriminate |].
  exists s'. split; [exact Hrun |]. split; [exact Hd | exact Hf].
Defined.

(** ** Decimal digits: Fx33 *)

(** X14.  [Fx33] writes the hundreds, tens and ones digits of the byte in
    register [x] at [I], [I + 1] and [I + 2], when those three addresses
    are inside the memory; the registers and [I] are unchanged. *)
Theorem bcd_stores_three_digits (opcode : Z) (s : CPU.t) :
  Z.land opcode 0xF000 = 0xF000 -> Z.land opcode 0xFF = 0x33 ->
  0 <= CPU.vget s (CPU.opX opcode) < 256 ->
  0 <= CPU.i s -> CPU.i s + 2 < Z.of_nat (length (CPU.memory s)) ->
  exists s' h t o,
    CPU.executeInstruction opcode s = Ok s'
    /\ u8get (CPU.memory s') (CPU.i s) = Some h
    /\ u8get (CPU.memory s') (CPU.i s + 1) = Some t
    /\ u8get (CPU.memory s') (CPU.i s + 2) = Some o
    /\ 0 <= h <= 2 /\ 0 <= t <= 9 /\ 0 <= o <= 9
    /\ CPU.vget s (CPU.opX opcode) = 100 * h + 10 * t + o
    /\ CPU.v s' = CPU.v s /\ CPU.i s' = CPU.i s.
Proof.
  intros Hhigh Hlow Hb Hi Hfit.
  set (b := CPU.vget s (CPU.opX opcode)) in *.
  exists (CPU.mset (CPU.i s + 2) (b mod 10)
            (CPU.mset (CPU.i s + 1) ((b mod 100) / 10)
               (CPU.mset (CPU.i s) (b / 100) (CPU.skip s)))),
    (b / 100), ((b mod 100) / 10), (b mod 10).
  split.
  { unfold CPU.executeInstruction, CPU.opcodeSwitch. rewrite Hhigh, Hlow. reflexivity. }
  cbn [CPU.memory CPU.mset CPU.with_memory CPU.skip CPU.with_pc CPU.v CPU.i].
  assert (Hh : (b / 100) mod 256 = b / 100)
    by (apply Z.mod_small; Z.div_mod_to_equations; lia).
  assert (Ht : ((b mod 100) / 10) mod 256 = (b mod 100) / 10)
    by (apply Z.mod_small; Z.div_mod_to_equations; lia).
  assert (Ho : (b mod 10) mod 256 = b mod 10)
    by (apply Z.mod_small; Z.div_mod_to_equations; lia).
  split; [| split; [| split]].
  - rewrite !u8get_u8set_ne by lia.
    rewrite u8get_u8set_eq by lia. rewrite Hh. reflexivity.
  - rewrite u8get_u8set_ne by lia.
    rewrite u8get_u8set_eq by (rewrite u8set_length; lia). rewrite Ht. reflexivity.
  - rewrite u8get_u8set_eq by (rewrite !u8set_length; lia). rewrite Ho. reflexivity.
  - repeat split; try reflexivity; Z.div_mod_to_equations; lia.
Qed.

Lemma bcd_stores_three_digits_witness :
  let s := CPU.vset 4 254
             (CPU.with_i 7
                (CPU.new (Renderer.new 10) Keyboard.new Speaker.new (fun _ => 7))) in
  exists s',
    CPU.executeInstruction 0xF433 s = Ok s'
    /\ u8get (CPU.memory s') 7 = Some 2
    /\ u8get (CPU.memory s') 8 = Some 5
    /\ u8get (CPU.memory s') 9 = Some 4.
Proof.
  intros s.
  destruct (bcd_stores_three_digits 0xF433 s eq_refl eq_refl)
    as (s' & h & t & o & Hrun & Hh & Ht & Ho & _);
    [ split; [apply Z.leb_le | apply Z.ltb_lt]; reflexivity
    | apply Z.leb_le; reflexivity
    | apply Z.ltb_lt; reflexivity
    | ].
  exists s'. split; [exact Hrun |].
  vm_compute in Hrun. injection Hrun as <-.
  repeat split; reflexivity.
Defined.

(** ** Random numbers: Cxkk *)

Lemma land_le_l (a b : Z) : 0 <= a -> 0 <= Z.land a b <= a.
Proof.
  intros Ha. split; [apply Z.land_nonneg; left; exact Ha |].
  assert (Hsplit : Z.ldiff a b + Z.land a b = a).
  { rewrite Z.add_nocarry_lor; [apply Z.lor_ldiff_and |].
    rewrite (Z.land_comm a b), Z.land_assoc, Z.land_ldiff. apply Z.land_0_l. }
  assert (0 <= Z.ldiff a b) by (apply Z.ldiff_nonneg; left; exact Ha).
  lia.
Qed.

(** X15.  [Cxkk] draws one random number and stores it masked by [kk] in
    register [x]: the stored value has no bit outside [kk], and it is at
    most 254, since the draw is [floor(random * 0xFF)]; 255 is never
    produced, also with [kk = 0xFF]. *)
Theorem rnd_is_masked_and_below_255 (opcode : Z) (s : CPU.t) :
  registersOk s ->
  Z.land opcode 0xF000 = 0xC000 ->
  exists s',
    CPU.executeInstruction opcode s = Ok s'
    /\ 0 <= CPU.vget s' (CPU.opX opcode) <= 254
    /\ Z.land (CPU.vget s' (CPU.opX opcode)) (Z.land opcode 0xFF)
       = CPU.vget s' (CPU.opX opcode)
    /\ CPU.randomCalls s' = S (CPU.randomCalls s).
Proof.
  intros Hok Hhigh. pose proof (opX_range opcode) as Hx.
  set (rand := CPU.mathRandom s (CPU.randomCalls s) mod 0xFF).
  assert (Hrand : 0 <= rand < 255) by (apply Z.mod_pos_bound; lia).
  pose proof (land_le_l rand (Z.land opcode 0xFF) ltac:(lia)) as Hland.
  exists (CPU.vset (CPU.opX opcode) (Z.land rand (Z.land opcode 0xFF))
            (CPU.with_randomCalls (S (CPU.randomCalls s)) (CPU.skip s))).
  split.
  { unfold CPU.executeInstruction, CPU.opcodeSwitch. rewrite Hhigh. reflexivity. }
  rewrite vget_vset_eq by (unfold registersOk in Hok; simpl; lia).
  rewrite Z.mod_small by lia.
  split; [lia |]. split; [| reflexivity].
  rewrite <- Z.land_assoc, Z.land_diag. reflexivity.
Qed.

Lemma rnd_is_masked_and_below_255_witness :
  let s := CPU.new (Renderer.new 10) Keyboard.new Speaker.new (fun _ => 1019) in
  exists s',
    CPU.executeInstruction 0xC2FF s = Ok s' /\ 0 <= CPU.vget s' 2 <= 254.
Proof.
  intros s.
  destruct (rnd_is_masked_and_below_255 0xC2FF s eq_refl eq_refl)
    as (s' & Hrun & Hr & _).
  exists s'. split; [exact Hrun | exact Hr].
Defined.

(** ** Register dump and restore: Fx55 and Fx65 *)

Lemma vget_byte (s : CPU.t) (j : Z) :
  bytes (CPU.v s) -> 0 <= CPU.vget s j < 256.
Proof.
  intros Hb. unfold CPU.vget, u8get.
  destruct (j <? 0); [simpl; lia |].
  destruct (CPU.v s !! Z.to_nat j) as [b |] eqn:E; simpl; [| lia].
  exact (proj1 (Forall_lookup _ _) Hb _ _ E).
Qed.

Lemma storeRegisters_frame (n : nat) (k : Z) (s : CPU.t) :
  CPU.v (CPU.storeRegisters k n s) = CPU.v s
  /\ CPU.i (CPU.storeRegisters k n s) = CPU.i s
  /\ length (CPU.memory (CPU.storeRegisters k n s)) = length (CPU.memory s).
Proof.
  revert k s. induction n as [| n IH]; intros k s; [repeat split |].
  cbn [CPU.storeRegisters].
  destruct (IH (k + 1) (CPU.mset (CPU.i s + k) (CPU.vget s k) s)) as (Hv & Hi & Hl).
  rewrite Hv, Hi, Hl. cbn [CPU.memory CPU.mset CPU.with_memory].
  rewrite u8set_length. repeat split.
Qed.

Lemma storeRegisters_below (n : nat) (k idx : Z) (s : CPU.t) :
  idx < CPU.i s + k ->
  u8get (CPU.memory (CPU.storeRegisters k n s)) idx = u8get (CPU.memory s) idx.
Proof.
  revert k s. induction n as [| n IH]; intros k s Hlt; [reflexivity |].
  cbn [CPU.storeRegisters]. rewrite IH by (simpl; lia).
  cbn [CPU.memory CPU.mset CPU.with_memory]. apply u8get_u8set_ne. lia.
Qed.

Lemma storeRegisters_lookup (n : nat) (k j : Z) (s : CPU.t) :
  0 <= CPU.i s + k ->
  CPU.i s + k + Z.of_nat n <= Z.of_nat (length (CPU.memory s)) ->
  k <= j < k + Z.of_nat n ->
  u8get (CPU.memory (CPU.storeRegisters k n s)) (CPU.i s + j)
  = Some (CPU.vget s j mod 256).
Proof.
  revert k s. induction n as [| n IH]; intros k s Hlo Hhi Hj; [lia |].
  cbn [CPU.storeRegisters].
  set (s1 := CPU.mset (CPU.i s + k) (CPU.vget s k) s).
  destruct (Z.eq_dec j k) as [-> | Hne].
  - rewrite (storeRegisters_below n (k + 1) (CPU.i s + k) s1) by (simpl; lia).
    subst s1. cbn [CPU.memory CPU.mset CPU.with_memory].
    apply u8get_u8set_eq. lia.
  - change (CPU.i s) with (CPU.i s1). change (CPU.vget s j) with (CPU.vget s1 j).
    apply IH.
    + simpl. lia.
    + subst s1. cbn [CPU.memory CPU.mset CPU.with_memory CPU.i].
      rewrite u8set_length. lia.
    + lia.
Qed.

Lemma loadRegisters_frame (n : nat) (k : Z) (s : CPU.t) :
  CPU.memory (CPU.loadRegisters k n s) = CPU.memory s
  /\ CPU.i (CPU.loadRegisters k n s) = CPU.i s
  /\ length (CPU.v (CPU.loadRegisters k n s)) = length (CPU.v s).
Proof.
  revert k s. induction n as [| n IH]; intros k s; [repeat split |].
  cbn [CPU.loadRegisters].
  destruct (IH (k + 1)
              (CPU.vset k (toInt (u8get (CPU.memory s) (CPU.i s + k))) s))
    as (Hm & Hi & Hl).
  rewrite Hm, Hi, Hl, vset_length. repeat split.
Qed.

Lemma loadRegisters_outside (n : nat) (k j : Z) (s : CPU.t) :
  j < k -> CPU.vget (CPU.loadRegisters k n s) j = CPU.vget s j.
Proof.
  revert k s. induction n as [| n IH]; intros k s Hlt; [reflexivity |].
  cbn [CPU.loadRegisters]. rewrite IH by lia. apply vget_vset_ne. lia.
Qed.

Lemma loadRegisters_lookup (n : nat) (k j : Z) (s : CPU.t) :
  0 <= k -> k + Z.of_nat n <= Z.of_nat (length (CPU.v s)) ->
  k <= j < k + Z.of_nat n ->
  CPU.vget (CPU.loadRegisters k n s) j
  = toInt (u8get (CPU.memory s) (CPU.i s + j)) mod 256.
Proof.
  revert k s. induction n as [| n IH]; intros k s Hlo Hhi Hj; [lia |].
  cbn [CPU.loadRegisters].
  set (s1 := CPU.vset k (toInt (u8get (CPU.memory s) (CPU.i s + k))) s).
  destruct (Z.eq_dec j k) as [-> | Hne].
  - rewrite loadRegisters_outside by lia. subst s1.
    apply vget_vset_eq. lia.
  - change (CPU.memory s) with (CPU.memory s1). change (CPU.i s) with (CPU.i s1).
    apply IH; [lia | subst s1; rewrite vset_length; lia | lia].
Qed.

(** X16.  [Fx55] copies registers 0 to [x] to the memory at [I] and up,
    leaving [I] as it is; [Fx65] with the same [x], executed next, reads
    them back: every register holds what it held before.  (The registers
    are bytes and the [x + 1] addresses are inside the memory.) *)
Theorem register_dump_then_restore (dump restore : Z) (size : nat) (s : CPU.t) :
  arraysOk size s ->
  Z.land dump 0xF000 = 0xF000 -> Z.land dump 0xFF = 0x55 ->
  Z.land restore 0xF000 = 0xF000 -> Z.land restore 0xFF = 0x65 ->
  CPU.opX restore = CPU.opX dump ->
  0 <= CPU.i s -> CPU.i s + CPU.opX dump < Z.of_nat size ->
  exists s1 s2,
    CPU.executeInstruction dump s = Ok s1
    /\ CPU.executeInstruction restore s1 = Ok s2
    /\ CPU.i s1 = CPU.i s /\ CPU.i s2 = CPU.i s
    /\ (forall j, 0 <= j <= CPU.opX dump ->
          u8get (CPU.memory s1) (CPU.i s + j) = Some (CPU.vget s j))
    /\ (forall j, CPU.vget s2 j = CPU.vget s j).
Proof.
  intros (Hok & Hbytes & Hsize & _) Hd1 Hd2 Hr1 Hr2 Hsame Hi Hfit.
  pose proof (opX_range dump) as Hx. unfold registersOk in Hok.
  set (x := CPU.opX dump) in *.
  set (s1 := CPU.storeRegisters 0 (Z.to_nat (x + 1)) (CPU.skip s)).
  set (s2 := CPU.loadRegisters 0 (Z.to_nat (x + 1)) (CPU.skip s1)).
  destruct (storeRegisters_frame (Z.to_nat (x + 1)) 0 (CPU.skip s))
    as (Hv1 & Hi1 & Hl1).
  fold s1 in Hv1, Hi1, Hl1.
  cbn [CPU.v CPU.i CPU.memory CPU.skip CPU.with_pc] in Hv1, Hi1, Hl1.
  assert (Hmem : forall j, 0 <= j <= x ->
            u8get (CPU.memory s1) (CPU.i s + j) = Some (CPU.vget s j)).
  { intros j Hj. subst s1.
    pose proof (storeRegisters_lookup (Z.to_nat (x + 1)) 0 j (CPU.skip s)) as Hst.
    cbn [CPU.i CPU.memory CPU.skip CPU.with_pc] in Hst.
    rewrite Hst by lia.
    change (CPU.vget (CPU.skip s) j) with (CPU.vget s j).
    rewrite Z.mod_small by (apply vget_byte; exact Hbytes). reflexivity. }
  exists s1, s2. split; [| split].
  { unfold CPU.executeInstruction, CPU.opcodeSwitch. rewrite Hd1, Hd2. reflexivity. }
  { unfold CPU.executeInstruction, CPU.opcodeSwitch. rewrite Hr1, Hr2, Hsame. reflexivity. }
  split; [exact Hi1 |].
  destruct (loadRegisters_frame (Z.to_nat (x + 1)) 0 (CPU.skip s1)) as (_ & Hi2 & _).
  split; [fold s2 in Hi2; rewrite Hi2; exact Hi1 |].
  split; [exact Hmem |].
  intros j. subst s2.
  destruct (Z_lt_le_dec j 0) as [Hneg | Hnn];
    [| destruct (Z_le_gt_dec j x) as [Hin | Hout]].
  - rewrite loadRegisters_outside by lia.
    change (CPU.vget (CPU.skip s1) j) with (CPU.vget s1 j).
    unfold CPU.vget. rewrite Hv1. reflexivity.
  - rewrite loadRegisters_lookup
      by (cbn [CPU.v CPU.skip CPU.with_pc]; rewrite ?Hv1; lia).
    cbn [CPU.memory CPU.i CPU.skip CPU.with_pc]. rewrite Hi1, (Hmem j) by lia.
    cbn [toInt default]. apply Z.mod_small. apply vget_byte. exact Hbytes.
  - assert (Hgo : forall n k t, k + Z.of_nat n <= j ->
              CPU.vget (CPU.loadRegisters k n t) j = CPU.vget t j).
    { induction n as [| n IH]; intros k t Hk; [reflexivity |].
      cbn [CPU.loadRegisters]. rewrite IH by lia. apply vget_vset_ne. lia. }
    rewrite Hgo by lia.
    change (CPU.vget (CPU.skip s1) j) with (CPU.vget s1 j).
    unfold CPU.vget. rewrite Hv1. reflexivity.
Qed.

Lemma register_dump_then_restore_witness :
  let s := CPU.vset 2 0x33
             (CPU.vset 1 0x22
                (CPU.vset 0 0x11
                   (CPU.with_i 4
                      (CPU.new (Renderer.new 10) Keyboard.new Speaker.new
                         (fun _ => 7))))) in
  exists s1 s2,
    CPU.executeInstruction 0xF255 s = Ok s1
    /\ CPU.executeInstruction 0xF265 s1 = Ok s2
    /\ u8get (CPU.memory s1) 6 = Some 0x33
    /\ CPU.vget s2 2 = 0x33.
Proof.
  intros s.
  assert (Hok : arraysOk 16 s).
  { unfold arraysOk, registersOk, bytes. vm_compute.
    repeat split; try reflexivity; repeat constructor; discriminate. }
  destruct (register_dump_then_restore 0xF255 0xF265 16 s Hok
              eq_refl eq_refl eq_refl eq_refl eq_refl)
    as (s1 & s2 & H1 & H2 & _ & _ & Hmem & Hv);
    [apply Z.leb_le; reflexivity | apply Z.ltb_lt; reflexivity |].
  exists s1, s2. split; [exact H1 |]. split; [exact H2 |]. split.
  - exact (Hmem 2 ltac:(split; [apply Z.leb_le | apply Z.leb_le]; reflexivity)).
  - exact (Hv 2).
Defined.

(** ** Held keys *)

Lemma keysPressed_onKeyDown (which : Z) (s : CPU.t) :
  Keyboard.keysPressed (CPU.keyboard (onKeyDown which s))
  = <[Keyboard.KEYMAP !! which := true]> (Keyboard.keysPressed (CPU.keyboard s)).
Proof.
  unfold onKeyDown.
  cbn [CPU.keyboard CPU.with_keyboard Keyboard.onNextKeyPress Keyboard.setPressed].
  destruct (Keyboard.onNextKeyPress (CPU.keyboard s)) as [[x] |]; [| reflexivity].
  destruct (Keyboard.KEYMAP !! which) as [k |]; [| reflexivity].
  destruct (Keyboard.truthy (Some k)); reflexivity.
Qed.

(** X17.  A key-down of a mapped physical key marks its key value as held
    and a key-up of the same key marks it as released, whether or not a key
    wait is pending; the held state of every other key value is as
    before. *)
Theorem key_down_then_up (which k : Z) (s : CPU.t) :
  Keyboard.KEYMAP !! which = Some k ->
  let down := onKeyDown which s in
  let up := onKeyUp which down in
  Keyboard.isKeyPressed k (CPU.keyboard down) = true
  /\ Keyboard.isKeyPressed k (CPU.keyboard up) = false
  /\ (forall k', k' <> k ->
        Keyboard.isKeyPressed k' (CPU.keyboard down)
        = Keyboard.isKeyPressed k' (CPU.keyboard s)
        /\ Keyboard.isKeyPressed k' (CPU.keyboard up)
           = Keyboard.isKeyPressed k' (CPU.keyboard s)).
Proof.
  intros Hmap down up. subst up down.
  unfold Keyboard.isKeyPressed, onKeyUp, Keyboard.onKeyUp.
  cbn [CPU.keyboard CPU.with_keyboard Keyboard.keysPressed Keyboard.setPressed].
  rewrite !keysPressed_onKeyDown, Hmap.
  split; [rewrite lookup_insert_eq; reflexivity |].
  split; [rewrite lookup_insert_eq; reflexivity |].
  intros k' Hne.
  rewrite !lookup_insert_ne by (intros [= E]; apply Hne; symmetry; exact E).
  split; reflexivity.
Qed.

Lemma key_down_then_up_witness :
  let s := CPU.new (Renderer.new 10) Keyboard.new Speaker.new (fun _ => 7) in
  Keyboard.isKeyPressed 0xC (CPU.keyboard (onKeyDown 52 s)) = true
  /\ Keyboard.isKeyPressed 0xC (CPU.keyboard (onKeyUp 52 (onKeyDown 52 s))) = false.
Proof.
  intros s.
  destruct (key_down_then_up 52 0xC s eq_refl) as (Hd & Hu & _).
  split; [exact Hd | exact Hu].
Defined.

(** X18.  A key-down of a physical key that is not in the key map changes
    the held state of none of the key values and never resolves a key wait:
    the registers, the paused flag and the callback are as before. *)
Theorem unmapped_key_is_ignored (which : Z) (s : CPU.t) :
  Keyboard.KEYMAP !! which = None ->
  (forall k, Keyboard.isKeyPressed k (CPU.keyboard (onKeyDown which s))
             = Keyboard.isKeyPressed k (CPU.keyboard s))
  /\ CPU.v (onKeyDown which s) = CPU.v s
  /\ CPU.paused (onKeyDown which s) = CPU.paused s
  /\ Keyboard.onNextKeyPress (CPU.keyboard (onKeyDown which s))
     = Keyboard.onNextKeyPress (CPU.keyboard s).
Proof.
  intros Hmap. split.
  - intros k. unfold Keyboard.isKeyPressed.
    rewrite keysPressed_onKeyDown, Hmap, lookup_insert_ne by discriminate.
    reflexivity.
  - unfold onKeyDown. rewrite Hmap.
    cbn [CPU.keyboard CPU.with_keyboard Keyboard.onNextKeyPress Keyboard.setPressed].
    destruct (Keyboard.onNextKeyPress (CPU.keyboard s)) eqn:E; simpl;
      rewrite ?E; repeat split.
Qed.

Lemma unmapped_key_is_ignored_witness :
  let s := CPU.with_paused true
             (CPU.new (Renderer.new 10) Keyboard.new Speaker.new (fun _ => 7)) in
  CPU.paused (onKeyDown 13 s) = true
  /\ Keyboard.isKeyPressed 0 (CPU.keyboard (onKeyDown 13 s)) = false.
Proof.
  intros s.
  destruct (unmapped_key_is_ignored 13 s eq_refl) as (Hk & _ & Hp & _).
  split; [exact Hp | exact (Hk 0)].
Defined.

Lemma jsAdd_2_2 (p : jsnum) : jsAdd (jsAdd p 2) 2 = jsAdd p 4.
Proof. destruct p; simpl; [f_equal; lia | reflexivity | reflexivity]. Qed.

(** X19.  The key skips follow the held keys: with the key value of
    register [x] held, [Ex9E] leaves the program counter 4 further and
    [ExA1] 2 further; with it released, the other way round.  Nothing else
    changes. *)
Theorem key_skips_follow_held_keys (skp sknp : Z) (s : CPU.t) :
  Z.land skp 0xF000 = 0xE000 -> Z.land skp 0xFF = 0x9E ->
  Z.land sknp 0xF000 = 0xE000 -> Z.land sknp 0xFF = 0xA1 ->
  let held x := Keyboard.isKeyPressed (CPU.vget s x) (CPU.keyboard s) in
  CPU.executeInstruction skp s
  = Ok (CPU.with_pc (jsAdd (CPU.pc s) (if held (CPU.opX skp) then 4 else 2)) s)
  /\ CPU.executeInstruction sknp s
     = Ok (CPU.with_pc (jsAdd (CPU.pc s) (if held (CPU.opX sknp) then 2 else 4)) s).
Proof.
  intros H1 H2 H3 H4 held. subst held. cbv beta.
  unfold CPU.executeInstruction, CPU.opcodeSwitch. rewrite H1, H2, H3, H4. cbv beta iota zeta.
  change (CPU.vget (CPU.skip s)) with (CPU.vget s).
  change (CPU.keyboard (CPU.skip s)) with (CPU.keyboard s).
  split.
  - destruct (Keyboard.isKeyPressed _ _); [| reflexivity].
    unfold CPU.skip. cbn [CPU.pc CPU.with_pc]. rewrite jsAdd_2_2. reflexivity.
  - destruct (Keyboard.isKeyPressed _ _); [reflexivity |].
    unfold CPU.skip. cbn [CPU.pc CPU.with_pc]. rewrite jsAdd_2_2. reflexivity.
Qed.

Lemma key_skips_follow_held_keys_witness :
  let s := onKeyDown 87
             (CPU.vset 1 5
                (CPU.new (Renderer.new 10) Keyboard.new Speaker.new (fun _ => 7))) in
  CPU.executeInstruction 0xE19E s = Ok (CPU.with_pc (Num 0x204) s)
  /\ CPU.executeInstruction 0xE1A1 s = Ok (CPU.with_pc (Num 0x202) s).
Proof.
  intros s.
  exact (key_skips_follow_held_keys 0xE19E 0xE1A1 s eq_refl eq_refl eq_refl eq_refl).
Defined.

(** ** Loading, on a memory of any size *)

Lemma copyInto_lookup_fitting (bytes : list Z) (base loc : Z) (m : list Z)
    (k : nat) (b : Z) :
  0 <= base + loc ->
  bytes !! k = Some b ->
  base + loc + Z.of_nat k < Z.of_nat (length m) ->
  u8get (CPU.copyInto base loc bytes m) (base + loc + Z.of_nat k) = Some (b mod 256).
Proof.
  revert loc m k.
  induction bytes as [| b0 rest IH]; intros loc m k Hlo Hk Hfit; [discriminate |].
  cbn [CPU.copyInto].
  destruct k as [| k]; cbn [lookup list_lookup] in Hk.
  - injection Hk as ->. rewrite copyInto_below by lia.
    rewrite Z.add_0_r in *. apply u8get_u8set_eq. lia.
  - replace (base + loc + Z.of_nat (S k))
      with (base + (loc + 1) + Z.of_nat k) by lia.
    apply IH; [lia | exact Hk | rewrite u8set_length; lia].
Qed.

(** X20.  [loadProgramIntoMemory] keeps the size of the memory, leaves
    every address below 0x200 as it was (the font stays), and stores each
    program byte whose address [0x200 + loc] is inside the memory; a byte
    whose address is past the end is dropped without a failure. *)
Theorem program_load_stores_what_fits (program : list Z) (s : CPU.t) :
  let s' := CPU.loadProgramIntoMemory program s in
  length (CPU.memory s') = length (CPU.memory s)
  /\ (forall idx, idx < 0x200 ->
        u8get (CPU.memory s') idx = u8get (CPU.memory s) idx)
  /\ (forall (loc : nat) b,
        program !! loc = Some b ->
        u8get (CPU.memory s') (0x200 + Z.of_nat loc)
        = if 0x200 + Z.of_nat loc <? Z.of_nat (length (CPU.memory s))
          then Some (b mod 256) else None).
Proof.
  intros s'. subst s'. unfold CPU.loadProgramIntoMemory.
  cbn [CPU.memory CPU.with_memory]. split; [apply copyInto_length |]. split.
  - intros idx Hlt. apply copyInto_below. lia.
  - intros loc b Hb.
    destruct (Z.ltb_spec (0x200 + Z.of_nat loc) (Z.of_nat (length (CPU.memory s))))
      as [Hin | Hout].
    + replace (0x200 + Z.of_nat loc) with (0x200 + 0 + Z.of_nat loc) by lia.
      apply copyInto_lookup_fitting; [lia | exact Hb | lia].
    + apply u8get_None. rewrite copyInto_length. exact Hout.
Qed.

Lemma sprites_are_bytes : bytes CPU.sprites.
Proof. unfold bytes, CPU.sprites. repeat constructor; discriminate. Qed.

(** X21.  Font addressing, on a memory of any size: after
    [loadSpritesIntoMemory], [Fx29] with a digit [d] (0 to 15) in register
    [x] sets [I] to [5 * d]; each of the five addresses from [I] on that is
    inside the memory holds the byte of the glyph of [d] in the font table,
    and one past the end reads [undefined].  (On the 16 bytes of the CPU as
    constructed the glyphs of 0, 1 and 2 are there and the others are
    not.) *)
Theorem font_glyph_is_at_I (opcode d : Z) (s : CPU.t) (row : nat) :
  Z.land opcode 0xF000 = 0xF000 -> Z.land opcode 0xFF = 0x29 ->
  CPU.vget s (CPU.opX opcode) = d -> 0 <= d < 16 -> (row < 5)%nat ->
  exists s',
    CPU.executeInstruction opcode (CPU.loadSpritesIntoMemory s) = Ok s'
    /\ CPU.i s' = 5 * d
    /\ is_Some (CPU.sprites !! (Z.to_nat (5 * d) + row)%nat)
    /\ u8get (CPU.memory s') (5 * d + Z.of_nat row)
       = if 5 * d + Z.of_nat row <? Z.of_nat (length (CPU.memory s))
         then CPU.sprites !! (Z.to_nat (5 * d) + row)%nat
         else None.
Proof.
  intros Hhigh Hlow Hd Hdr Hrow.
  exists (CPU.with_i (d * 5) (CPU.skip (CPU.loadSpritesIntoMemory s))).
  split.
  { unfold CPU.executeInstruction, CPU.opcodeSwitch. rewrite Hhigh, Hlow.
    cbv beta iota zeta.
    change (CPU.vget (CPU.skip (CPU.loadSpritesIntoMemory s)) (CPU.opX opcode))
      with (CPU.vget s (CPU.opX opcode)).
    rewrite Hd. reflexivity. }
  cbn [CPU.i CPU.with_i CPU.memory CPU.skip CPU.with_pc CPU.loadSpritesIntoMemory
       CPU.with_memory].
  split; [lia |].
  assert (Hsome : is_Some (CPU.sprites !! (Z.to_nat (5 * d) + row)%nat)).
  { apply lookup_lt_is_Some. change (length CPU.sprites) with 80%nat. lia. }
  split; [exact Hsome |].
  destruct (Z.ltb_spec (5 * d + Z.of_nat row) (Z.of_nat (length (CPU.memory s))))
    as [Hin | Hout].
  - destruct Hsome as [b Hb]. rewrite Hb.
    replace (5 * d + Z.of_nat row)
      with (0 + 0 + Z.of_nat (Z.to_nat (5 * d) + row)) by lia.
    rewrite (copyInto_lookup_fitting CPU.sprites 0 0 (CPU.memory s) _ b)
      by (try exact Hb; lia).
    f_equal. apply Z.mod_small.
    exact (proj1 (Forall_lookup _ _) sprites_are_bytes _ _ Hb).
  - apply u8get_None. rewrite copyInto_length. exact Hout.
Qed.

(** On the CPU as constructed: the last byte of the glyph of 2 is at
    address 14, and the glyph of A, at 50 and up, is not in the memory. *)
Lemma font_glyph_is_at_I_witness :
  let s := CPU.vset 4 0xA
             (CPU.vset 3 0x2
                (CPU.new (Renderer.new 10) Keyboard.new Speaker.new (fun _ => 7))) in
  (exists s',
     CPU.executeInstruction 0xF329 (CPU.loadSpritesIntoMemory s) = Ok s'
     /\ CPU.i s' = 10 /\ u8get (CPU.memory s') 14 = Some 0xF0)
  /\ (exists s',
        CPU.executeInstruction 0xF429 (CPU.loadSpritesIntoMemory s) = Ok s'
        /\ CPU.i s' = 50 /\ u8get (CPU.memory s') 50 = None).
Proof.
  intros s. split.
  - destruct (font_glyph_is_at_I 0xF329 0x2 s 4) as (s' & Hrun & Hi & _ & Hb);
      [ reflexivity | reflexivity | reflexivity
      | split; [apply Z.leb_le | apply Z.ltb_lt]; reflexivity
      | apply Nat.ltb_lt; reflexivity | ].
    exists s'. split; [exact Hrun |]. split; [exact Hi | exact Hb].
  - destruct (font_glyph_is_at_I 0xF429 0xA s 0) as (s' & Hrun & Hi & _ & Hb);
      [ reflexivity | reflexivity | reflexivity
      | split; [apply Z.leb_le | apply Z.ltb_lt]; reflexivity
      | apply Nat.ltb_lt; reflexivity | ].
    exists s'. split; [exact Hrun |]. split; [exact Hi | exact Hb].
Defined.

(** ** The frame gate of step *)

(** X22.  With the interval [init] computes, [step] runs no frame while at
    most 16 ms have passed since [then], and exactly one [cycle] otherwise;
    in both cases it records [now] and [elapsed], requests the next
    animation frame and leaves [then] as it is. *)
Theorem step_runs_at_most_one_frame (dateNow : Z) (g : Chip8.t) :
  Chip8.fpsInterval g = ((1000 # 1) / inject_Z 60)%Q ->
  exists g',
    Chip8.step dateNow g = Ok g'
    /\ Chip8.now g' = dateNow
    /\ Chip8.elapsed g' = dateNow - Chip8.then_ g
    /\ Chip8.then_ g' = Chip8.then_ g
    /\ Chip8.loop g' = S (Chip8.loop g)
    /\ (if dateNow - Chip8.then_ g <=? 16
        then Chip8.cpu g' = Chip8.cpu g
        else CPU.cycle (Chip8.cpu g) = Ok (Chip8.cpu g')).
Proof.
  intros Hi. unfold Chip8.step. rewrite Hi.
  destruct (Z.leb_spec (dateNow - Chip8.then_ g) 16) as [Hearly | Hlate].
  - destruct (Chip8.due _ _) eqn:Hdue.
    + apply due_at_60 in Hdue. lia.
    + eexists. split; [reflexivity |]. repeat split.
  - rewrite (proj2 (due_at_60 (dateNow - Chip8.then_ g))) by lia.
    destruct (cycle_returns (Chip8.cpu g)) as [c Hc]. rewrite Hc.
    eexists. split; [reflexivity |]. repeat split.
Qed.

Lemma step_runs_at_most_one_frame_witness :
  let g := Chip8.init 1000 (Chip8.start (fun _ => 7)) in
  exists g', Chip8.step 1016 g = Ok g' /\ Chip8.cpu g' = Chip8.cpu g.
Proof.
  intros g.
  destruct (step_runs_at_most_one_frame 1016 g eq_refl)
    as (g' & Hrun & _ & _ & _ & _ & Hcpu).
  exists g'. split; [exact Hrun | exact Hcpu].
Defined.

(** ** Fetching past the end of the memory *)

Lemma fetch_past_the_end (s : CPU.t) (p : Z) :
  CPU.pc s = Num p -> Z.of_nat (length (CPU.memory s)) <= p -> CPU.fetch s = 0.
Proof.
  intros Hpc Hp. unfold CPU.fetch. rewrite Hpc. cbn [u8getAt jsAdd].
  rewrite !u8get_None by lia. reflexivity.
Qed.

(** X23.  A program counter at or past the end of the memory fetches the
    opcode 0, which does nothing: [n] instructions later the program
    counter is [2 * n] further and nothing else has changed.  (So it is for
    the CPU as constructed, whose memory ends long before 0x200.) *)
Theorem running_past_the_end_of_memory (n : nat) (s : CPU.t) (p : Z) :
  CPU.paused s = false ->
  CPU.pc s = Num p -> Z.of_nat (length (CPU.memory s)) <= p ->
  CPU.cycleLoop CPU.executeInstruction n s
  = Ok (CPU.with_pc (Num (p + 2 * Z.of_nat n)) s).
Proof.
  revert s p. induction n as [| n IH]; intros s p Hp Hpc Hlen.
  - cbn [CPU.cycleLoop]. rewrite Z.add_0_r, <- Hpc. destruct s; reflexivity.
  - cbn [CPU.cycleLoop]. rewrite Hp, (fetch_past_the_end s p Hpc Hlen).
    assert (Hstep : CPU.executeInstruction 0 s = Ok (CPU.with_pc (Num (p + 2)) s)).
    { unfold CPU.executeInstruction, CPU.opcodeSwitch, CPU.skip. rewrite Hpc. reflexivity. }
    rewrite Hstep. cbn [mbind result_bind].
    rewrite (IH _ (p + 2)) by (try reflexivity; try exact Hp; simpl; lia).
    cbn [CPU.with_pc CPU.renderer CPU.keyboard CPU.speaker CPU.memory CPU.v CPU.i
         CPU.delayTimer CPU.soundTimer CPU.stack CPU.paused CPU.speed
         CPU.mathRandom CPU.randomCalls].
    unfold CPU.with_pc. do 3 f_equal. lia.
Qed.

Lemma running_past_the_end_of_memory_witness :
  let s := CPU.loadProgramIntoMemory [0x61; 0x05; 0x71; 0x01]
             (CPU.loadSpritesIntoMemory
                (CPU.new (Renderer.new 10) Keyboard.new Speaker.new (fun _ => 7))) in
  CPU.cycleLoop CPU.executeInstruction 10 s = Ok (CPU.with_pc (Num 0x214) s).
Proof.
  intros s.
  apply (running_past_the_end_of_memory 10 s 0x200 eq_refl eq_refl).
  apply Z.leb_le. reflexivity.
Defined.

(** ** What a draw plots *)

Lemma toggleAll_app (l1 l2 : list (Z * Z)) (r : Renderer.t) :
  toggleAll (l1 ++ l2) r = toggleAll l2 (toggleAll l1 r).
Proof. unfold toggleAll. apply fold_left_app. Qed.

Lemma toggleAll_calls (l : list (Z * Z)) (r : Renderer.t) :
  Renderer.setPixelCalls (toggleAll l r) = Renderer.setPixelCalls r ++ l.
Proof.
  revert r. induction l as [| [x y] l IH]; intros r.
  - simpl. rewrite app_nil_r. reflexivity.
  - cbn [toggleAll fold_left]. fold (toggleAll l (Renderer.setPixel (x, y).1 (x, y).2 r).1).
    rewrite IH. simpl. rewrite <- app_assoc. reflexivity.
Qed.

Section DrawExactly.

Variables x a : Z.
Hypothesis x_not_flag : x <> 0xF.

Lemma plot_exactly (col row : Z) (s0 s : CPU.t) :
  drawFrame x a s0 s ->
  CPU.renderer (CPU.plot x col row s)
  = toggleAll [(a + col, a + row)] (CPU.renderer s)
  /\ drawFrame x a s0 (CPU.plot x col row s).
Proof.
  intros (Ha & Hm & Hi). unfold CPU.plot. rewrite Ha.
  cbn [toggleAll fold_left fst snd].
  destruct (Renderer.setPixel (a + col) (a + row) (CPU.renderer s)) as [r erased].
  destruct erased; cbn [fst]; (split; [reflexivity |]).
  - split; [| split; assumption].
    rewrite vget_flag_written by exact x_not_flag. exact Ha.
  - split; [exact Ha | split; assumption].
Qed.

Lemma drawCols_exactly (row sprite : Z) (n : nat) (col : Z) (s0 s : CPU.t) :
  drawFrame x a s0 s ->
  CPU.renderer (CPU.drawCols x row sprite col n s)
  = toggleAll (if Z.land sprite 0x80 >? 0 then columnCoords a row col n else [])
      (CPU.renderer s)
  /\ drawFrame x a s0 (CPU.drawCols x row sprite col n s).
Proof.
  revert col s. induction n as [| n IH]; intros col s Hf.
  - cbn [CPU.drawCols columnCoords]. destruct (_ >? _); split; auto.
  - cbn [CPU.drawCols columnCoords].
    destruct (Z.land sprite 128 >? 0) eqn:Hbit.
    + destruct (plot_exactly col row s0 s Hf) as (Hr1 & Hf1).
      destruct (IH (col + 1) _ Hf1) as (Hr & Hf2). rewrite ?Hbit in Hr.
      split; [| exact Hf2].
      rewrite Hr, Hr1.
      change ((a + col, a + row) :: columnCoords a row (col + 1) n)
        with ([(a + col, a + row)] ++ columnCoords a row (col + 1) n).
      rewrite toggleAll_app. reflexivity.
    + destruct (IH (col + 1) s Hf) as (Hr & Hf2). rewrite ?Hbit in Hr.
      split; assumption.
Qed.

Lemma drawRows_exactly (n : nat) (row : Z) (s0 s : CPU.t) :
  drawFrame x a s0 s ->
  CPU.renderer (CPU.drawRows x row n s)
  = toggleAll (drawCoords a (CPU.memory s0) (CPU.i s0) row n) (CPU.renderer s)
  /\ drawFrame x a s0 (CPU.drawRows x row n s).
Proof.
  revert row s. induction n as [| n IH]; intros row s Hf.
  - cbn [CPU.drawRows drawCoords]. split; [reflexivity | exact Hf].
  - cbn [CPU.drawRows drawCoords].
    destruct Hf as (Ha & Hm & Hi).
    rewrite Hm, Hi.
    destruct (drawCols_exactly row (toInt (u8get (CPU.memory s0) (CPU.i s0 + row)))
                8 0 s0 s (conj Ha (conj Hm Hi))) as (Hr1 & Hf1).
    destruct (IH (row + 1) _ Hf1) as (Hr & Hf2).
    split; [| exact Hf2].
    rewrite Hr, Hr1, toggleAll_app. reflexivity.
Qed.

End DrawExactly.

(** The renderer a draw returns, when [x] is not the flag register. *)
Lemma draw_plots_rows_with_bit_7_exact (opcode : Z) (s : CPU.t) :
  Z.land opcode 0xF000 = 0xD000 -> CPU.opX opcode <> 0xF ->
  exists s',
    CPU.executeInstruction opcode s = Ok s'
    /\ CPU.renderer s'
       = toggleAll (drawCoords (CPU.vget s (CPU.opX opcode)) (CPU.memory s)
                      (CPU.i s) 0 (Z.to_nat (Z.land opcode 0xF)))
           (CPU.renderer s)
    /\ CPU.vget s' (CPU.opX opcode) = CPU.vget s (CPU.opX opcode)
    /\ CPU.memory s' = CPU.memory s /\ CPU.i s' = CPU.i s.
Proof.
  intros Hhigh Hx.
  eexists. split; [apply execute_Dxyn; exact Hhigh |].
  destruct (drawRows_exactly (CPU.opX opcode) (CPU.vget s (CPU.opX opcode)) Hx
              (Z.to_nat (Z.land opcode 0xF)) 0 s (CPU.vset 0xF 0 (CPU.skip s)))
    as (Hr & Ha & Hm & Hi).
  { split; [| split; reflexivity].
    rewrite vget_flag_written by exact Hx. reflexivity. }
  split; [exact Hr |]. split; [exact Ha | split; assumption].
Qed.

(** X24.  What [Dxyn] plots when [x] is not [0xF]: for each of the [n]
    rows whose byte at [I + row] has bit 7 set, all eight columns, in order,
    at [(a + col, a + row)] with [a] the value of register [x]; for a row
    whose byte has bit 7 clear, nothing.  The renderer afterwards is the
    one these [setPixel] calls produce; [I], the memory and register [x]
    are unchanged. *)
Theorem draw_plots_rows_with_bit_7 (opcode : Z) (s : CPU.t) :
  Z.land opcode 0xF000 = 0xD000 -> CPU.opX opcode <> 0xF ->
  let coords := drawCoords (CPU.vget s (CPU.opX opcode)) (CPU.memory s) (CPU.i s)
                  0 (Z.to_nat (Z.land opcode 0xF)) in
  exists s',
    CPU.executeInstruction opcode s = Ok s'
    /\ CPU.renderer s' = toggleAll coords (CPU.renderer s)
    /\ calls s' = calls s ++ coords
    /\ CPU.vget s' (CPU.opX opcode) = CPU.vget s (CPU.opX opcode)
    /\ CPU.memory s' = CPU.memory s /\ CPU.i s' = CPU.i s.
Proof.
  intros Hhigh Hx coords.
  destruct (draw_plots_rows_with_bit_7_exact opcode s Hhigh Hx)
    as (s' & Hrun & Hr & Ha & Hm & Hi).
  exists s'. split; [exact Hrun |]. split; [exact Hr |].
  split; [| split; [exact Ha | split; assumption]].
  unfold calls. rewrite Hr. apply toggleAll_calls.
Qed.

Lemma draw_plots_rows_with_bit_7_witness :
  let s := CPU.vset 1 3
             (CPU.loadSpritesIntoMemory
                (CPU.new (Renderer.new 10) Keyboard.new Speaker.new (fun _ => 7))) in
  exists s',
    CPU.executeInstruction 0xD102 s = Ok s'
    /\ calls s' = [(3, 3); (4, 3); (5, 3); (6, 3); (7, 3); (8, 3); (9, 3); (10, 3);
                   (3, 4); (4, 4); (5, 4); (6, 4); (7, 4); (8, 4); (9, 4); (10, 4)].
Proof.
  intros s.
  destruct (draw_plots_rows_with_bit_7 0xD102 s eq_refl) as (s' & Hrun & _ & Hc & _);
    [vm_compute; discriminate |].
  exists s'. split; [exact Hrun | exact Hc].
Defined.

(** ** Drawing twice *)

Lemma toggleAll_geometry (l : list (Z * Z)) (r : Renderer.t) :
  Renderer.cols (toggleAll l r) = Renderer.cols r
  /\ Renderer.rows (toggleAll l r) = Renderer.rows r.
Proof.
  revert r. induction l as [| c l IH]; intros r; [split; reflexivity |].
  cbn [toggleAll fold_left]. fold (toggleAll l (Renderer.setPixel c.1 c.2 r).1).
  destruct (IH (Renderer.setPixel c.1 c.2 r).1) as [-> ->]. split; reflexivity.
Qed.

Lemma hitsOddly_app (cols rows k : Z) (l1 l2 : list (Z * Z)) :
  hitsOddly cols rows k (l1 ++ l2)
  = xorb (hitsOddly cols rows k l1) (hitsOddly cols rows k l2).
Proof.
  induction l1 as [| c l1 IH]; [symmetry; apply xorb_false_l |].
  cbn [app hitsOddly fold_right]. fold (hitsOddly cols rows k (l1 ++ l2)).
  fold (hitsOddly cols rows k l1). rewrite IH, xorb_assoc. reflexivity.
Qed.

(** A pixel after a sequence of [setPixel] calls: flipped when the calls
    hit its cell an odd number of times. *)
Lemma pixel_toggleAll (l : list (Z * Z)) (r : Renderer.t) (k : Z) :
  pixel (toggleAll l r) k
  = if hitsOddly (Renderer.cols r) (Renderer.rows r) k l
    then Z.lxor (pixel r k) 1 else pixel r k.
Proof.
  revert r. induction l as [| c l IH]; intros r; [reflexivity |].
  cbn [toggleAll fold_left hitsOddly fold_right].
  fold (toggleAll l (Renderer.setPixel c.1 c.2 r).1).
  fold (hitsOddly (Renderer.cols r) (Renderer.rows r) k l).
  rewrite IH, pixel_setPixel.
  change (Renderer.cols (Renderer.setPixel c.1 c.2 r).1) with (Renderer.cols r).
  change (Renderer.rows (Renderer.setPixel c.1 c.2 r).1) with (Renderer.rows r).
  change (Renderer.wrap c.1 (Renderer.cols r)
          + Renderer.wrap c.2 (Renderer.rows r) * Renderer.cols r)
    with (Renderer.pixelLoc r c.1 c.2).
  destruct (Z.eqb_spec (Renderer.pixelLoc r c.1 c.2) k) as [E | E];
    destruct (decide (k = Renderer.pixelLoc r c.1 c.2)) as [E' | E'];
    try (exfalso; congruence);
    destruct (hitsOddly _ _ k l); cbn [xorb negb];
    rewrite ?lxor_1_twice; reflexivity.
Qed.

(** X25.  Drawing is an exclusive or: [Dxyn] executed twice in a row, with
    [x] other than [0xF], gives every pixel of the framebuffer the value it
    had before the first draw. *)
Theorem drawing_twice_restores_the_framebuffer (opcode : Z) (s : CPU.t) :
  Z.land opcode 0xF000 = 0xD000 -> CPU.opX opcode <> 0xF ->
  exists s1 s2,
    CPU.executeInstruction opcode s = Ok s1
    /\ CPU.executeInstruction opcode s1 = Ok s2
    /\ (forall k, pixel (CPU.renderer s2) k = pixel (CPU.renderer s) k).
Proof.
  intros Hhigh Hx.
  destruct (draw_plots_rows_with_bit_7_exact opcode s Hhigh Hx)
    as (s1 & H1 & Hr1 & Ha1 & Hm1 & Hi1).
  destruct (draw_plots_rows_with_bit_7_exact opcode s1 Hhigh Hx)
    as (s2 & H2 & Hr2 & _).
  exists s1, s2. split; [exact H1 |]. split; [exact H2 |].
  intros k. rewrite Hr2, Ha1, Hm1, Hi1, Hr1, <- toggleAll_app.
  rewrite pixel_toggleAll, hitsOddly_app, xorb_nilpotent. reflexivity.
Qed.

Lemma drawing_twice_restores_the_framebuffer_witness :
  let s := CPU.vset 1 3
             (CPU.loadSpritesIntoMemory
                (CPU.new (Renderer.new 10) Keyboard.new Speaker.new (fun _ => 7))) in
  exists s1 s2,
    CPU.executeInstruction 0xD105 s = Ok s1
    /\ CPU.executeInstruction 0xD105 s1 = Ok s2
    /\ pixel (CPU.renderer s1) (3 + 64 * 3) = 1
    /\ pixel (CPU.renderer s2) (3 + 64 * 3) = 0.
Proof.
  intros s.
  destruct (drawing_twice_restores_the_framebuffer 0xD105 s eq_refl)
    as (s1 & s2 & H1 & H2 & Hpix); [vm_compute; discriminate |].
  exists s1, s2. split; [exact H1 |]. split; [exact H2 |].
  split; [| exact (Hpix (3 + 64 * 3))].
  vm_compute in H1. injection H1 as <-. vm_compute. reflexivity.
Defined.

(** ** No opcode fails *)

(** X26.  Every opcode has a case: [executeInstruction] returns for every
    opcode and every state, and so does [cycle]; the unknown-opcode failure
    of the [default] arm cannot be raised. *)
Theorem no_opcode_fails (s : CPU.t) :
  (forall opcode, exists s', CPU.executeInstruction opcode s = Ok s')
  /\ (exists s', CPU.cycle s = Ok s')
  /\ (forall opcode e, CPU.executeInstruction opcode s <> Throw e).
Proof.
  split; [| split].
  - intros opcode. apply executeInstruction_returns.
  - apply cycle_returns.
  - intros opcode e He.
    destruct (executeInstruction_returns opcode s) as [s' Hs'].
    rewrite Hs' in He. discriminate He.
Qed.
